(** * Request: attribute normalisation and cmsDriver command generation

    A shallow embedding of [core/model/request.py] (class [Request]) and
    the properties of its command compiler.

    Python values are embedded dynamically typed: an attribute or an
    argument is a [pyval], a mapping is an association list in insertion
    order, and a call that can raise returns a [result].  Strings are
    Python [str] values whose code points are below 256, one [ascii] per
    code point; floating-point values are outside the model. *)

From Stdlib Require Import ZArith Lia Ascii.
From stdpp Require Import base list sorting strings pretty.

(** ** Python values *)

(** A scalar: [None], a [bool], an [int] or a [str]. *)
Inductive atom : Type :=
  | ANone
  | ABool (b : bool)
  | AInt (z : Z)
  | AStr (s : string).

(** A value: a scalar or a list of scalars. *)
Inductive pyval : Type :=
  | VAtom (a : atom)
  | VList (l : list atom).

Abbreviation VNone := (VAtom ANone).
Abbreviation VBool b := (VAtom (ABool b)).
Abbreviation VInt z := (VAtom (AInt z)).
Abbreviation VStr s := (VAtom (AStr s)).

(** The exceptions the embedded code can raise: Python's built-in ones,
    and the error kinds of the document model ([SchemaError],
    [ValidationError]) and of the compiler ([PipelineCompilationError])
    as the specification names them. *)
Inductive exn : Type :=
  | IndexError
  | KeyError (key : string)
  | AttributeError
  | TypeError
  | ValueError
  | UnboundLocalError
  | SchemaError (field : string)
  | ValidationError (field : string) (value : pyval)
  | PipelineCompilationError.

Inductive result (A : Type) : Type :=
  | Ok (a : A)
  | Err (e : exn).
Arguments Ok {A} a.
Arguments Err {A} e.

(** Sequencing: an exception ends the computation. *)
Global Instance result_ret : MRet result := @Ok.
Global Instance result_bind : MBind result := fun A B f m =>
  match m with
  | Ok a => f a
  | Err e => Err e
  end.

Global Instance atom_eq_dec : EqDecision atom.
Proof. solve_decision. Defined.
Global Instance pyval_eq_dec : EqDecision pyval.
Proof. solve_decision. Defined.

(** ** Built-in operations *)

Definition nl : string := String "010"%char "".
Definition dquote : string := String "034"%char "".

(** [bool(v)]: [None], [False], [0], the empty string and the empty
    list are false. *)
Definition truthy (v : pyval) : bool :=
  match v with
  | VAtom ANone => false
  | VAtom (ABool b) => b
  | VAtom (AInt z) => negb (z =? 0)%Z
  | VAtom (AStr s) => negb (String.eqb s "")
  | VList l => match l with [] => false | _ => true end
  end.

Definition isinstance_bool (v : pyval) : bool :=
  match v with VAtom (ABool _) => true | _ => false end.

(** [str.isspace] of one character (code points below 256). *)
Definition isspace (c : ascii) : bool :=
  let n := Ascii.N_of_ascii c in
  ((9 <=? n) && (n <=? 13) || (28 <=? n) && (n <=? 32)
   || (n =? 133) || (n =? 160))%N.

(** [s.rstrip()] *)
Fixpoint rstrip (s : string) : string :=
  match s with
  | EmptyString => EmptyString
  | String c s' =>
      match rstrip s' with
      | EmptyString => if isspace c then EmptyString else String c EmptyString
      | t => String c t
      end
  end.

(** [sep.join(l)] *)
Fixpoint join (sep : string) (l : list string) : string :=
  match l with
  | [] => ""
  | [s] => s
  | s :: l' => s +:+ sep +:+ join sep l'
  end.

(** [s.split(sep)[0]] for a separator of one character: the text before
    its first occurrence, the whole of [s] when there is none. *)
Fixpoint split_first (sep : ascii) (s : string) : string :=
  match s with
  | EmptyString => EmptyString
  | String c s' =>
      if Ascii.eqb c sep then EmptyString else String c (split_first sep s')
  end.

(** [s.startswith(p)] *)
Definition startswith (s p : string) : bool := String.prefix p s.

Fixpoint string_drop (n : nat) (s : string) : string :=
  match n, s with
  | S n', String _ s' => string_drop n' s'
  | _, _ => s
  end.

(** [s.replace(old, new, 1)]: the leftmost occurrence of [old] replaced. *)
Fixpoint replace_first (old new s : string) : string :=
  if String.prefix old s then new +:+ string_drop (String.length old) s
  else match s with
       | EmptyString => EmptyString
       | String c s' => String c (replace_first old new s')
       end.

(** [repr] of a [str]: single quotes unless the text holds one and no
    double quote; the quote, the backslash, tab, newline and return are
    escaped, a character that is not printable is written [\xhh]. *)
Definition hex_digit (n : N) : ascii :=
  Ascii.ascii_of_N (if (n <? 10)%N then 48 + n else 87 + n).

Definition repr_char (quote c : ascii) : string :=
  let n := Ascii.N_of_ascii c in
  let bs := "092"%char in
  if Ascii.eqb c quote || Ascii.eqb c bs then String bs (String c "")
  else if (n =? 9)%N then String bs "t"
  else if (n =? 10)%N then String bs "n"
  else if (n =? 13)%N then String bs "r"
  else if ((n <? 32) || (n =? 127) || (128 <=? n) && (n <=? 160) || (n =? 173))%N
       then String bs (String "x"%char
              (String (hex_digit (n / 16)) (String (hex_digit (n mod 16)) "")))
  else String c "".

Fixpoint string_mem (c : ascii) (s : string) : bool :=
  match s with
  | EmptyString => false
  | String c' s' => Ascii.eqb c c' || string_mem c s'
  end.

Fixpoint string_flat_map (f : ascii -> string) (s : string) : string :=
  match s with
  | EmptyString => EmptyString
  | String c s' => f c +:+ string_flat_map f s'
  end.

Definition repr_str (s : string) : string :=
  let squote := "039"%char in
  let quote :=
    if string_mem squote s && negb (string_mem "034"%char s)
    then "034"%char else squote in
  String quote (string_flat_map (repr_char quote) s) +:+ String quote "".

(** [str(a)] of a scalar; the text an f-string gives for it. *)
Definition str_atom (a : atom) : string :=
  match a with
  | ANone => "None"
  | ABool true => "True"
  | ABool false => "False"
  | AInt z => pretty z
  | AStr s => s
  end.

Definition repr_atom (a : atom) : string :=
  match a with
  | AStr s => repr_str s
  | _ => str_atom a
  end.

(** [str(v)] *)
Definition py_str (v : pyval) : string :=
  match v with
  | VAtom a => str_atom a
  | VList l => "[" +:+ join ", " (repr_atom <$> l) +:+ "]"
  end.

(** [l[i]] on a list: a negative index counts from the end. *)
Definition py_index {A : Type} (l : list A) (i : Z) : result A :=
  let n := Z.of_nat (length l) in
  let j := (if i <? 0 then i + n else i)%Z in
  if (j <? 0)%Z then Err IndexError
  else match l !! Z.to_nat j with
       | Some x => Ok x
       | None => Err IndexError
       end.

(** The value of a [bool] or an [int] as a number. *)
Definition atom_number (a : atom) : option Z :=
  match a with
  | ABool b => Some (if b then 1 else 0)%Z
  | AInt z => Some z
  | _ => None
  end.

(** [a == b] on scalars: numbers by value ([True == 1]), strings by
    text, [None] only with itself. *)
Definition atom_eqb (a b : atom) : bool :=
  match atom_number a, atom_number b with
  | Some x, Some y => (x =? y)%Z
  | None, None => bool_decide (a = b)
  | _, _ => false
  end.

(** [x in l] *)
Definition py_in (x : atom) (l : list atom) : bool := existsb (atom_eqb x) l.

(** [int(s)] of a string: blanks around, a sign, then decimal digits,
    single underscores allowed between digits. *)
Definition int_space (c : ascii) : bool :=
  let n := Ascii.N_of_ascii c in
  ((9 <=? n) && (n <=? 13) || (n =? 32) || (n =? 133) || (n =? 160))%N.

Fixpoint lstrip_int (s : string) : string :=
  match s with
  | String c s' => if int_space c then lstrip_int s' else s
  | EmptyString => EmptyString
  end.

Fixpoint rstrip_int (s : string) : string :=
  match s with
  | EmptyString => EmptyString
  | String c s' =>
      match rstrip_int s' with
      | EmptyString => if int_space c then EmptyString else String c EmptyString
      | t => String c t
      end
  end.

Fixpoint parse_digits (acc : Z) (after_digit : bool) (s : string) : option Z :=
  match s with
  | EmptyString => if after_digit then Some acc else None
  | String c s' =>
      match Ascii.is_nat c with
      | Some d => parse_digits (10 * acc + Z.of_nat d) true s'
      | None =>
          if Ascii.eqb c "_" && after_digit then parse_digits acc false s'
          else None
      end
  end.

Definition int_of_str (s : string) : option Z :=
  match rstrip_int (lstrip_int s) with
  | String "-" t => Z.opp <$> parse_digits 0 false t
  | String "+" t => parse_digits 0 false t
  | t => parse_digits 0 false t
  end.

(** [int(a)] *)
Definition py_int (a : atom) : result Z :=
  match a with
  | ANone => Err TypeError
  | ABool b => Ok (if b then 1 else 0)%Z
  | AInt z => Ok z
  | AStr s => match int_of_str s with Some z => Ok z | None => Err ValueError end
  end.

(** The elements a [for] loop visits: those of a list, the characters of
    a string; other scalars are not iterable. *)
Fixpoint string_chars (s : string) : list atom :=
  match s with
  | EmptyString => []
  | String c s' => AStr (String c "") :: string_chars s'
  end.

Definition py_iter (v : pyval) : result (list atom) :=
  match v with
  | VList l => Ok l
  | VAtom (AStr s) => Ok (string_chars s)
  | VAtom _ => Err TypeError
  end.

(** ** Mappings *)

(** A [dict] with string keys, in insertion order; keys are distinct. *)
Definition dict : Type := list (string * pyval).

Definition dict_keys (d : dict) : list string := d.*1.

(** [d.get(k)]; [d[k]] raises [KeyError] where this is [None]. *)
Fixpoint dict_get (d : dict) (k : string) : option pyval :=
  match d with
  | [] => None
  | (k', v) :: d' => if String.eqb k k' then Some v else dict_get d' k
  end.

(** [k in d] *)
Definition dict_in (k : string) (d : dict) : bool :=
  match dict_get d k with Some _ => true | None => false end.

(** [d[k] = v]: rebinds the key where it stands, or adds it at the end. *)
Fixpoint dict_set (d : dict) (k : string) (v : pyval) : dict :=
  match d with
  | [] => [(k, v)]
  | (k', v') :: d' =>
      if String.eqb k k' then (k, v) :: d' else (k', v') :: dict_set d' k v
  end.

(** [del d[k]], for a key that is present. *)
Fixpoint dict_del (d : dict) (k : string) : dict :=
  match d with
  | [] => []
  | (k', v') :: d' => if String.eqb k k' then d' else (k', v') :: dict_del d' k
  end.

(** [d[k]] *)
Definition dict_item (d : dict) (k : string) : result pyval :=
  match dict_get d k with
  | Some v => Ok v
  | None => Err (KeyError k)
  end.

(** ** The Request document *)

(** A request: [json] holds its scalar and flat-list attributes by name;
    the attribute [sequences], a list of mappings (one per sequence, in
    pipeline order), has a field of its own. *)
Record Request : Type := mkRequest {
  json : dict;
  sequences : list dict
}.

(** The attributes of [_ModelBase__schema]. *)
Definition schema : list string :=
  ["_id"; "_rev"; "cmssw_release"; "energy"; "history"; "input_dataset";
   "memory"; "notes"; "output_datasets"; "prepid"; "priority";
   "processing_string"; "runs"; "sequences"; "size_per_event"; "status";
   "step"; "subcampaign"; "time_per_event"; "workflows"].

(** [self.get_prepid()] and [self.get('input_dataset')]: the stored
    value, the schema's default (the empty string) when there is none. *)
Definition get_prepid (r : Request) : pyval :=
  default (VStr "") (dict_get (json r) "prepid").

Definition get_input_dataset (r : Request) : pyval :=
  default (VStr "") (dict_get (json r) "input_dataset").

(** A comparison of a value with a number: defined on [int] and [bool],
    a [TypeError] on anything else. *)
Definition number_check (p : Z -> bool) (v : pyval) : result bool :=
  match v with
  | VAtom a =>
      match atom_number a with
      | Some z => Ok (p z)
      | None => Err TypeError
      end
  | VList _ => Err TypeError
  end.

(** [v in (s1, s2, ...)] for a tuple of strings. *)
Definition one_of (choices : list string) (v : pyval) : result bool :=
  match v with
  | VAtom a => Ok (py_in a (AStr <$> choices))
  | VList _ => Ok false
  end.

Section Model.

(** What the base class [ModelBase] (core/model/model_base.py) and the
    class [Sequence] (core/model/sequence.py) give to this file: the base
    table of checks, the regular-expression helper, and the default of a
    sequence's [step] attribute. *)
Variable ModelBase_lambda_checks : string -> option (pyval -> result bool).
Variable matches_regex : pyval -> string -> result bool.
Variable Sequence_schema_step : list atom.

(** [Request._lambda_checks]: the check registered under a name.  A
    check returns its verdict, or raises.  The checks of [cmssw_release]
    and [subcampaign] return the base class's check itself, not its
    verdict on the value: a function, which counts as true; the checks
    of [input_dataset] and [processing_string] are the base class's. *)
Definition lambda_checks (name : string) : option (pyval -> result bool) :=
  if String.eqb name "cmssw_release" then
    Some (fun cmssw =>
      match ModelBase_lambda_checks "cmssw_release" with
      | Some _ => Ok true
      | None => Err (KeyError "cmssw_release")
      end)
  else if String.eqb name "energy" then
    Some (number_check (fun energy => 0 <=? energy)%Z)
  else if String.eqb name "input_dataset" then
    ModelBase_lambda_checks "dataset"
  else if String.eqb name "memory" then
    Some (number_check (fun memory => 0 <=? memory)%Z)
  else if String.eqb name "prepid" then
    Some (fun prepid => matches_regex prepid "[a-zA-Z0-9\-_]{1,100}")
  else if String.eqb name "priority" then
    Some (number_check
            (fun priority => (1000 <=? priority) && (priority <=? 1000000))%Z)
  else if String.eqb name "processing_string" then
    ModelBase_lambda_checks "processing_string"
  else if String.eqb name "__runs" then
    Some (fun r =>
      match r with
      | VAtom (AInt z) => Ok (0 <? z)%Z
      | VAtom (ABool b) => Ok b
      | _ => Ok false
      end)
  else if String.eqb name "size_per_event" then
    Some (number_check (fun spe => 0 <? spe)%Z)
  else if String.eqb name "status" then
    Some (one_of ["new"; "approved"; "submitting"; "submitted"; "done"])
  else if String.eqb name "step" then
    Some (one_of ["DR"; "MiniAOD"; "NanoAOD"])
  else if String.eqb name "subcampaign" then
    Some (fun subcampaign =>
      match ModelBase_lambda_checks "subcampaign" with
      | Some _ => Ok true
      | None => Err (KeyError "subcampaign")
      end)
  else if String.eqb name "time_per_event" then
    Some (number_check (fun tpe => 0 <? tpe)%Z)
  else if String.eqb name "type" then
    Some (one_of ["Prod"; "MCReproc"; "LHE"])
  else None.

(** The loop of [before_attribute_check] for [runs]: [runs] is the list
    built so far, [attribute_value] what is left to visit. *)
Fixpoint normalise_runs (runs attribute_value : list atom) : result (list atom) :=
  match attribute_value with
  | [] => Ok runs
  | run :: rest =>
      if negb (py_in run runs)
      then z ← py_int run; normalise_runs (runs ++ [AInt z]) rest
      else normalise_runs runs rest
  end.

(** Modelled from the spec: the hook of the base class, which
    [Request.before_attribute_check] calls for every attribute but
    [runs]; the base class is not among the sources.  The spec gives it
    no transformation of its own, so it returns the value as it is. *)
Definition ModelBase_before_attribute_check
    (attribute_name : string) (attribute_value : pyval) : result pyval :=
  Ok attribute_value.

(** [Request.before_attribute_check] *)
Definition before_attribute_check
    (attribute_name : string) (attribute_value : pyval) : result pyval :=
  if String.eqb attribute_name "runs" then
    values ← py_iter attribute_value;
    runs ← normalise_runs [] values;
    Ok (VList runs)
  else ModelBase_before_attribute_check attribute_name attribute_value.

(** A check accepts a value when it returns true; a false verdict and an
    exception both reject. *)
Definition passes (check : pyval -> result bool) (v : pyval) : bool :=
  match check v with
  | Ok true => true
  | _ => false
  end.

(** Modelled from the spec: the validation step of [ModelBase.set]. The
    check registered under the attribute's name judges the value; the
    check registered under the name marked with two underscores judges
    each element of a list value. *)
Definition valid (attribute_name : string) (value : pyval) : bool :=
  match lambda_checks attribute_name with
  | Some check => passes check value
  | None => true
  end
  &&
  match lambda_checks ("__" +:+ attribute_name), value with
  | Some check, VList l => forallb (fun a => passes check (VAtom a)) l
  | _, _ => true
  end.

(** Modelled from the spec: [ModelBase.set] (core/model/model_base.py is
    not among the sources).  An attribute outside the schema is a
    [SchemaError]; the hook transforms the value; a value its check
    rejects is a [ValidationError] with the attribute's name and the
    value; otherwise the transformed value is stored and returned.  The
    result pairs the request after the call with the call's outcome. *)
Definition ModelBase_set (r : Request) (attribute_name : string)
    (attribute_value : pyval) : Request * result pyval :=
  if negb (bool_decide (attribute_name ∈ schema)) then
    (r, Err (SchemaError attribute_name))
  else
    match before_attribute_check attribute_name attribute_value with
    | Err e => (r, Err e)
    | Ok value =>
        if valid attribute_name value
        then (mkRequest (dict_set (json r) attribute_name value) (sequences r),
              Ok value)
        else (r, Err (ValidationError attribute_name value))
    end.

(** [Request.get_sequence_name] *)
Definition get_sequence_name (r : Request) (sequence_index : Z) : string :=
  let prepid := get_prepid r in
  if negb (sequence_index =? Z.of_nat (length (sequences r)) - 1)%Z
  then py_str prepid +:+ "_" +:+ pretty sequence_index
  else py_str prepid.

(** One turn of the loop of [build_cmsdriver], for the key [key]; the
    state is the command and the comment built so far and the mapping.
    Every read of [arguments[key]] is a lookup in the mapping as it then
    is; [key] comes from the mapping's own keys, so it is there. *)
Definition build_step (st : string * string * dict) (key : string)
    : string * string * dict :=
  let '(command, comment, arguments) := st in
  match dict_get arguments key with
  | None => st
  | Some v =>
      if negb (truthy v) then st
      else
        let arguments :=
          if isinstance_bool v then dict_set arguments key (VStr "")
          else arguments in
        let arguments :=
          match dict_get arguments key with
          | Some (VList l) =>
              dict_set arguments key (VStr (join "," (str_atom <$> l)))
          | _ => arguments
          end in
        let text := from_option py_str "" (dict_get arguments key) in
        (command +:+ rstrip (" --" +:+ key +:+ " " +:+ text),
         comment +:+ rstrip ("# --" +:+ key +:+ " " +:+ text) +:+ nl,
         arguments)
  end.

(** [Request.build_cmsdriver]: the text returned, and the mapping as the
    call leaves it (the caller's mapping is updated in place).  The call
    to the logger leaves both untouched. *)
Definition build_cmsdriver (cmsdriver_type : string) (arguments : dict)
    : string * dict :=
  let command :=
    "# Command for " +:+ cmsdriver_type +:+ ":" +:+ nl
    +:+ "cmsDriver.py " +:+ cmsdriver_type in
  let comment := "# Arguments for " +:+ cmsdriver_type +:+ ":" +:+ nl in
  let '(command, comment, arguments) :=
    foldl build_step (command, comment, arguments)
          (merge_sort String.le (dict_keys arguments)) in
  (comment +:+ nl +:+ command, arguments).

(** Modelled from the spec: class [Sequence] (core/model/sequence.py is
    not among the sources).  A sequence object holds the mapping it is
    built from, and building it raises nothing; its [step] attribute is
    the list of step names the mapping stores, the schema's default when
    the mapping stores no list there. *)
Definition Sequence_get_step (sequence : dict) : list atom :=
  match dict_get sequence "step" with
  | Some (VList steps) => steps
  | _ => Sequence_schema_step
  end.

(** The harvesting trigger on one entry of [step]: the entry is [DQM],
    or starts with [DQM:]. *)
Definition is_dqm_step (one_step : atom) : bool :=
  match one_step with
  | AStr s => String.eqb s "DQM" || startswith s "DQM:"
  | _ => false
  end.

(** Modelled from the spec: [Sequence.needs_harvesting], true when the
    step list has an entry equal to [DQM] or starting with [DQM:]. *)
Definition needs_harvesting (sequence : dict) : bool :=
  existsb is_dqm_step (Sequence_get_step sequence).

(** The loop over [sequence.get('step')] in [get_cmsdriver]: the value of
    the local [step] when the loop ends, [None] when no turn bound it.
    An entry that is no string has no [startswith]. *)
Fixpoint harvesting_step (steps : list atom) : result (option string) :=
  match steps with
  | [] => Ok None
  | one_step :: rest =>
      if atom_eqb one_step (AStr "DQM") then Ok (Some "HARVESTING")
      else match one_step with
           | AStr s =>
               if startswith s "DQM:"
               then Ok (Some (replace_first "DQM:" "HARVESTING:" s))
               else harvesting_step rest
           | _ => Err AttributeError
           end
  end.

(** [v.split(',')[0]]: only a string has [split]. *)
Definition first_token (v : pyval) : result string :=
  match v with
  | VAtom (AStr s) => Ok (split_first "," s)
  | _ => Err AttributeError
  end.

(** [get_cmsdriver] from the copy of the sequence's mapping up to the
    call of [build_cmsdriver] for the primary command: the argument
    mapping that call receives. *)
Definition cmsdriver_arguments (r : Request) (sequence_json : dict)
    (sequence_index : Z) (overwrite_input : pyval) : dict :=
  let prepid := get_prepid r in
  let arguments_dict := sequence_json in
  let arguments_dict :=
    if dict_in "config_id" arguments_dict
    then dict_del arguments_dict "config_id" else arguments_dict in
  let arguments_dict :=
    if dict_in "harvesting_config_id" arguments_dict
    then dict_del arguments_dict "harvesting_config_id" else arguments_dict in
  let arguments_dict :=
    if truthy overwrite_input then
      dict_set arguments_dict "filein" overwrite_input
    else if (sequence_index =? 0)%Z then
      let input_dataset := get_input_dataset r in
      dict_set arguments_dict "filein"
        (VStr (dquote +:+ "dbs:" +:+ py_str input_dataset +:+ dquote))
    else
      let input_file := get_sequence_name r (sequence_index - 1) +:+ ".root" in
      dict_set arguments_dict "filein"
        (VStr (dquote +:+ "file:" +:+ input_file +:+ dquote)) in
  let sequence_name := get_sequence_name r sequence_index in
  let arguments_dict :=
    dict_set arguments_dict "fileout"
      (VStr (dquote +:+ "file:" +:+ sequence_name +:+ ".root" +:+ dquote)) in
  let arguments_dict :=
    dict_set arguments_dict "python_filename"
      (VStr (dquote +:+ py_str prepid +:+ "_" +:+ pretty sequence_index
             +:+ "_cfg.py" +:+ dquote)) in
  let arguments_dict := dict_set arguments_dict "data" (VBool true) in
  let arguments_dict := dict_set arguments_dict "no_exec" (VBool true) in
  let arguments_dict := dict_set arguments_dict "runUnscheduled" (VBool true) in
  arguments_dict.

(** The mapping of the harvesting command, its entries read in the order
    the source writes them; [arguments_dict] is the primary mapping as
    [build_cmsdriver] left it, [step] the local the loop bound. *)
Definition harvesting_arguments (arguments_dict : dict) (step : option string)
    (sequence_name : string) : result dict :=
  conditions ← dict_item arguments_dict "conditions";
  step ← from_option Ok (Err UnboundLocalError) step;
  era ← dict_item arguments_dict "era";
  era ← first_token era;
  scenario ← dict_item arguments_dict "scenario";
  Ok [("conditions", conditions);
      ("step", VStr step);
      ("era", VStr era);
      ("scenario", scenario);
      ("data", VBool true);
      ("no_exec", VBool true);
      ("filein", VStr (dquote +:+ "file:" +:+ sequence_name +:+ "_inDQM.root" +:+ dquote));
      ("python_filename", VStr (dquote +:+ sequence_name +:+ "_harvest_cfg.py" +:+ dquote))].

(** [Request.get_cmsdriver] *)
Definition get_cmsdriver (r : Request) (sequence_index : Z)
    (overwrite_input : pyval) : result string :=
  sequence_json ← py_index (sequences r) sequence_index;
  let sequence := sequence_json in
  let arguments_dict :=
    cmsdriver_arguments r sequence_json sequence_index overwrite_input in
  let sequence_name := get_sequence_name r sequence_index in
  let '(cms_driver_command, arguments_dict) :=
    build_cmsdriver "RECO" arguments_dict in
  if needs_harvesting sequence then
    step ← harvesting_step (Sequence_get_step sequence);
    harvesting_dict ← harvesting_arguments arguments_dict step sequence_name;
    Ok (cms_driver_command +:+ nl +:+ nl
        +:+ (build_cmsdriver "HARVESTING" harvesting_dict).1)
  else Ok cms_driver_command.

End Model.

(** ** The environment set-up *)

(** [self.get('cmssw_release')]: the stored value, the schema's default
    (the empty string) when there is none. *)
Definition get_cmssw_release (r : Request) : pyval :=
  default (VStr "") (dict_get (json r) "cmssw_release").

(** [Request.get_cmssw_setup]; the percent sign puts [str] of the
    release in each line. *)
Definition get_cmssw_setup (r : Request) : string :=
  let cmssw_release := py_str (get_cmssw_release r) in
  let commands :=
    ["source /cvmfs/cms.cern.ch/cmsset_default.sh";
     "if [ -r " +:+ cmssw_release +:+ "/src ] ; then";
     "  echo " +:+ cmssw_release +:+ " already exist";
     "else";
     "  scram p CMSSW " +:+ cmssw_release;
     "fi";
     "cd " +:+ cmssw_release +:+ "/src";
     "eval `scram runtime -sh`";
     "cd ../.."] in
  join nl commands.

(** How many times a character stands in a text. *)
Fixpoint string_count (c : ascii) (s : string) : nat :=
  match s with
  | EmptyString => 0
  | String c' s' => (if Ascii.eqb c c' then 1 else 0) + string_count c s'
  end.

(** ** Sample requests *)

(** A request [ABC-123] reading [/X/Y/Z], with the given sequences. *)
Definition sample_request (seqs : list dict) : Request :=
  mkRequest [("prepid", VStr "ABC-123"); ("input_dataset", VStr "/X/Y/Z");
             ("priority", VInt 110000); ("runs", VList [])] seqs.

Definition reco_sequence : dict :=
  [("step", VList [AStr "RAW2DIGI"; AStr "RECO"]);
   ("conditions", VStr "auto:run3"); ("era", VStr "Run3");
   ("scenario", VStr "pp"); ("nThreads", VInt 8)].

Definition dqm_sequence : dict :=
  [("step", VList [AStr "RAW2DIGI"; AStr "DQM:dqmHarvesting"; AStr "DQM"]);
   ("conditions", VStr "auto:run3"); ("era", VStr "Run3,extra");
   ("scenario", VStr "pp"); ("config_id", VStr "abc")].

(** A sequence that asks for harvesting, its era given as a list. *)
Definition dqm_sequence_with_era_list : dict :=
  [("step", VList [AStr "DQM"]); ("conditions", VStr "auto:run3");
   ("era", VList [AStr "Run3"; AStr "extra"]); ("scenario", VStr "pp")].


(** An argument mapping with a flag, a list, a number, and values that
    are false, put in no particular order. *)
Definition sample_arguments : dict :=
  [("step", VList [AStr "RAW2DIGI"; AStr "RECO"]);
   ("nThreads", VInt 8);
   ("data", VBool true);
   ("customise", VStr "");
   ("era", VStr "Run3");
   ("datatier", VList []);
   ("extra", VNone);
   ("no_exec", VBool false);
   ("nStreams", VInt 0)].

(** ** The content of a command block *)

(** The value a key is bound to once [build_cmsdriver] has visited it. *)
Definition rebound (v : pyval) : pyval :=
  if truthy v then
    match v with
    | VAtom (ABool _) => VStr ""
    | VList l => VStr (join "," (str_atom <$> l))
    | _ => v
    end
  else v.

(** What the argument under [key] adds to a command: nothing when its
    value is false, else the key with the text of its value. *)
Definition emitted_at (arguments : dict) (key : string) : option (string * string) :=
  v ← dict_get arguments key;
  if truthy v then Some (key, py_str (rebound v)) else None.

(** The arguments a command shows, visiting [keys] in that order. *)
Definition emitted_on (arguments : dict) (keys : list string) : list (string * string) :=
  omap (emitted_at arguments) keys.

Definition emitted (arguments : dict) : list (string * string) :=
  emitted_on arguments (merge_sort String.le (dict_keys arguments)).

Definition concat_strings (l : list string) : string := foldr String.append "" l.

(** One argument on the command line and in the comment listing. *)
Definition command_token (e : string * string) : string :=
  rstrip (" --" +:+ e.1 +:+ " " +:+ e.2).

Definition comment_line (e : string * string) : string :=
  rstrip ("# --" +:+ e.1 +:+ " " +:+ e.2) +:+ nl.

(** The two parts of the text of a command of kind [kind] showing the
    arguments [shown]: the comment listing and the command itself. *)
Definition comment_block (kind : string) (shown : list (string * string)) : string :=
  "# Arguments for " +:+ kind +:+ ":" +:+ nl
  +:+ concat_strings (comment_line <$> shown).

Definition command_block (kind : string) (shown : list (string * string)) : string :=
  "# Command for " +:+ kind +:+ ":" +:+ nl +:+ "cmsDriver.py " +:+ kind
  +:+ concat_strings (command_token <$> shown).

(** Keys in strictly increasing lexicographic order. *)
Definition key_lt (k1 k2 : string) : Prop := String.le k1 k2 /\ k1 <> k2.

(** A step name that asks for harvesting: [DQM], or [DQM:] and more. *)
Definition dqm_name (s : string) : Prop :=
  s = "DQM" \/ exists rest, s = "DQM:" +:+ rest.

(** The label of the harvesting command for such a step name. *)
Definition harvesting_label (s : string) : string :=
  if String.eqb s "DQM" then "HARVESTING"
  else "HARVESTING:" +:+ string_drop 4 s.

(** The mapping of the harvesting command for a sequence named
    [sequence_name], as the specification lists its entries. *)
Definition harvesting_dict (conditions scenario : pyval) (label era_token sequence_name : string) : dict :=
  [("conditions", conditions);
   ("step", VStr label);
   ("era", VStr era_token);
   ("scenario", scenario);
   ("data", VBool true);
   ("no_exec", VBool true);
   ("filein", VStr (dquote +:+ "file:" +:+ sequence_name +:+ "_inDQM.root" +:+ dquote));
   ("python_filename", VStr (dquote +:+ sequence_name +:+ "_harvest_cfg.py" +:+ dquote))].

(** Runs without repetition, each at its first place. *)
Fixpoint first_occurrences (seen l : list Z) : list Z :=
  match l with
  | [] => []
  | z :: l' =>
      if bool_decide (z ∈ seen) then first_occurrences seen l'
      else z :: first_occurrences (seen ++ [z]) l'
  end.

(** A decidable proposition about given data, settled by evaluation. *)
Ltac decide_by_computation :=
  refine (bool_decide_unpack _ _); vm_compute; exact I.

(** ** The built-in operations on samples *)

Example rstrip_samples :
  rstrip " --a b  " = " --a b" /\ rstrip "   " = "" /\ rstrip (" x" +:+ nl) = " x".
Proof. by vm_compute. Qed.

Example int_of_str_samples :
  int_of_str <$> ["5"; " 5 "; "+5"; "-5"; "007"; "5_0"; "0_0";
                  "- 5"; "_5"; "5_"; "5__0"; ""; " "; "+"; "abc"]
  = [Some 5; Some 5; Some 5; Some (-5); Some 7; Some 50; Some 0;
     None; None; None; None; None; None; None; None]%Z.
Proof. by vm_compute. Qed.

Example py_str_samples :
  py_str (VInt (-25)) = "-25"
  /\ py_str (VInt 0) = "0"
  /\ py_str (VList [AInt 1; AStr "a"; ANone; ABool true]) = "[1, 'a', None, True]"
  /\ py_str (VList [AStr "x'y"]) = "[" +:+ dquote +:+ "x'y" +:+ dquote +:+ "]".
Proof. by vm_compute. Qed.

Example py_index_samples :
  py_index [10; 20; 30]%Z 0 = Ok 10%Z
  /\ py_index [10; 20; 30]%Z (-1) = Ok 30%Z
  /\ py_index [10; 20; 30]%Z 3 = Err IndexError
  /\ py_index [10; 20; 30]%Z (-4) = Err IndexError.
Proof. by vm_compute. Qed.

Example sorted_samples :
  merge_sort String.le ["b"; "a"; "ab"; "B"; ""; "a "] = [""; "B"; "a"; "a "; "ab"; "b"].
Proof. by vm_compute. Qed.

Example replace_first_samples :
  replace_first "DQM:" "HARVESTING:" "DQM:aDQM:" = "HARVESTING:aDQM:"
  /\ split_first "," "Run3,extra" = "Run3"
  /\ split_first "," "" = ""
  /\ startswith "xDQM:" "DQM:" = false.
Proof. by vm_compute. Qed.

(** ** Strings *)

Lemma string_app_cons (c : ascii) (s1 s2 : string) :
  String c s1 +:+ s2 = String c (s1 +:+ s2).
Proof. done. Qed.

Lemma string_app_nil_l (s : string) : "" +:+ s = s.
Proof. done. Qed.

Lemma string_app_assoc (s1 s2 s3 : string) :
  (s1 +:+ s2) +:+ s3 = s1 +:+ (s2 +:+ s3).
Proof.
  induction s1 as [|c s1 IH]; [done|].
  by rewrite !string_app_cons, IH.
Qed.

Lemma string_app_nil_r (s : string) : s +:+ "" = s.
Proof.
  induction s as [|c s IH]; [done|]. by rewrite string_app_cons, IH.
Qed.

Lemma rstrip_app_blank (s : string) : rstrip (s +:+ " ") = rstrip s.
Proof.
  induction s as [|c s IH]; [done|].
  rewrite string_app_cons. cbn [rstrip]. by rewrite IH.
Qed.

(** Stripping reaches no further left than a character that is no
    blank: a flag with no value is the key alone. *)
Lemma rstrip_flag (key : string) :
  rstrip (" --" +:+ key +:+ " " +:+ "") = " --" +:+ rstrip key.
Proof.
  rewrite string_app_nil_r, !string_app_cons, string_app_nil_l.
  cbn [rstrip]. rewrite rstrip_app_blank.
  by destruct (rstrip key).
Qed.

(** ** Mappings *)

Lemma dict_get_None (d : dict) (k : string) :
  dict_get d k = None <-> k ∉ dict_keys d.
Proof.
  unfold dict_keys. induction d as [|[k' v'] d IH]; cbn.
  - split; [intros _; apply not_elem_of_nil|done].
  - rewrite not_elem_of_cons. destruct (String.eqb_spec k k'); [|tauto].
    split; [done|]. tauto.
Qed.

Lemma dict_get_Some_elem (d : dict) (k : string) (v : pyval) :
  dict_get d k = Some v -> (k, v) ∈ d.
Proof.
  induction d as [|[k' v'] d IH]; cbn; [done|].
  destruct (String.eqb_spec k k') as [->|_].
  - intros [= ->]. apply elem_of_cons; by left.
  - intros H. apply elem_of_cons; right; auto.
Qed.

Lemma dict_get_elem (d : dict) (k : string) (v : pyval) :
  NoDup (dict_keys d) -> (k, v) ∈ d -> dict_get d k = Some v.
Proof.
  unfold dict_keys. induction d as [|[k' v'] d IH]; cbn.
  - intros _ H. by apply elem_of_nil in H.
  - intros [Hk' Hd]%NoDup_cons [[= -> ->]|Hin]%elem_of_cons.
    + by rewrite String.eqb_refl.
    + destruct (String.eqb_spec k k') as [->|_]; [|auto].
      destruct Hk'. apply list_elem_of_fmap. by exists (k', v).
Qed.

Lemma dict_get_perm (d1 d2 : dict) (k : string) :
  NoDup (dict_keys d1) -> d1 ≡ₚ d2 -> dict_get d1 k = dict_get d2 k.
Proof.
  intros Hnd Hp.
  assert (Hnd2 : NoDup (dict_keys d2)) by (unfold dict_keys; by rewrite <- Hp).
  destruct (dict_get d1 k) as [v|] eqn:H1.
  - symmetry. apply dict_get_elem; [done|]. rewrite <- Hp.
    by apply dict_get_Some_elem.
  - symmetry. apply dict_get_None. apply dict_get_None in H1.
    unfold dict_keys in *. by rewrite <- Hp.
Qed.

Lemma dict_get_set (d : dict) (k k' : string) (v : pyval) :
  dict_get (dict_set d k v) k' =
  if bool_decide (k' = k) then Some v else dict_get d k'.
Proof.
  induction d as [|[k0 v0] d IH]; cbn.
  - case_bool_decide as Hk; subst.
    + by rewrite String.eqb_refl.
    + by apply String.eqb_neq in Hk as ->.
  - destruct (String.eqb_spec k k0) as [->|Hne]; cbn.
    + case_bool_decide as Hk; subst; [by rewrite String.eqb_refl|].
      by apply String.eqb_neq in Hk as ->.
    + rewrite IH. destruct (String.eqb_spec k' k0) as [->|_]; [|done].
      by rewrite bool_decide_eq_false_2.
Qed.

Lemma dict_get_set_eq (d : dict) (k : string) (v : pyval) :
  dict_get (dict_set d k v) k = Some v.
Proof. by rewrite dict_get_set, bool_decide_eq_true_2. Qed.

Lemma dict_get_set_ne (d : dict) (k k' : string) (v : pyval) :
  k' <> k -> dict_get (dict_set d k v) k' = dict_get d k'.
Proof. intros. by rewrite dict_get_set, bool_decide_eq_false_2. Qed.

Lemma dict_keys_set_present (d : dict) (k : string) (v : pyval) :
  k ∈ dict_keys d -> dict_keys (dict_set d k v) = dict_keys d.
Proof.
  unfold dict_keys. induction d as [|[k0 v0] d IH]; cbn.
  - intros H. by apply elem_of_nil in H.
  - destruct (String.eqb_spec k k0) as [->|Hne]; [done|].
    intros [?|Hin]%elem_of_cons; [done|]. cbn. by rewrite IH.
Qed.

Lemma dict_keys_set_absent (d : dict) (k : string) (v : pyval) :
  k ∉ dict_keys d -> dict_keys (dict_set d k v) = dict_keys d ++ [k].
Proof.
  unfold dict_keys. induction d as [|[k0 v0] d IH]; cbn; [done|].
  intros [Hne Hin]%not_elem_of_cons.
  apply String.eqb_neq in Hne as ->. cbn. by rewrite IH.
Qed.

Lemma dict_set_NoDup (d : dict) (k : string) (v : pyval) :
  NoDup (dict_keys d) -> NoDup (dict_keys (dict_set d k v)).
Proof.
  intros Hnd. destruct (decide (k ∈ dict_keys d)) as [Hin|Hout].
  - by rewrite dict_keys_set_present.
  - rewrite dict_keys_set_absent by done.
    apply NoDup_app. split_and!; [done| |apply NoDup_singleton].
    intros x Hx ->%list_elem_of_singleton. done.
Qed.

Lemma dict_get_del_ne (d : dict) (k k' : string) :
  k' <> k -> dict_get (dict_del d k) k' = dict_get d k'.
Proof.
  intros Hne. induction d as [|[k0 v0] d IH]; cbn; [done|].
  destruct (String.eqb_spec k k0) as [->|Hk]; cbn.
  - by apply String.eqb_neq in Hne as ->.
  - by rewrite IH.
Qed.

Lemma dict_del_sublist (d : dict) (k : string) :
  dict_keys (dict_del d k) `sublist_of` dict_keys d.
Proof.
  unfold dict_keys. induction d as [|[k0 v0] d IH]; cbn; [done|].
  destruct (String.eqb k k0); cbn.
  - by apply sublist_cons.
  - by apply sublist_skip.
Qed.

Lemma dict_del_NoDup (d : dict) (k : string) :
  NoDup (dict_keys d) -> NoDup (dict_keys (dict_del d k)).
Proof. intros H. eapply sublist_NoDup; eauto using dict_del_sublist. Qed.

(** ** The loop of [build_cmsdriver] *)

Lemma dict_rebind (d : dict) (key : string) (v w : pyval) :
  dict_get d key = Some v ->
  dict_keys (dict_set d key w) = dict_keys d /\
  forall k, dict_get (dict_set d key w) k =
            if bool_decide (k = key) then Some w else dict_get d k.
Proof.
  intros Hv. split; [|intros k; apply dict_get_set].
  apply dict_keys_set_present.
  destruct (decide (key ∈ dict_keys d)) as [|Hout]; [done|].
  apply dict_get_None in Hout. congruence.
Qed.

(** One turn: the texts grow by what the key shows, and the key is
    rebound; the other keys are as they were. *)
Lemma build_step_spec (command comment : string) (arguments : dict) (key : string) :
  exists arguments',
    build_step (command, comment, arguments) key =
      (command +:+ concat_strings (command_token <$> emitted_on arguments [key]),
       comment +:+ concat_strings (comment_line <$> emitted_on arguments [key]),
       arguments') /\
    dict_keys arguments' = dict_keys arguments /\
    forall k, dict_get arguments' k =
              if bool_decide (k = key) then rebound <$> dict_get arguments k
              else dict_get arguments k.
Proof.
  unfold build_step, emitted_on, emitted_at. cbn [omap list_omap].
  destruct (dict_get arguments key) as [v|] eqn:Hv; cbn [mbind option_bind].
  2:{ exists arguments. cbn. rewrite !string_app_nil_r. split_and!; [done..|].
      intros k. case_bool_decide; subst; rewrite ?Hv; done. }
  assert (Hsame : forall w, rebound v = w -> forall k,
    (if bool_decide (k = key) then Some w else dict_get arguments k) =
    if bool_decide (k = key) then rebound <$> dict_get arguments k
    else dict_get arguments k).
  { intros w <- k. case_bool_decide; subst; rewrite ?Hv; done. }
  assert (Hkeep : forall k,
    dict_get arguments k =
    if bool_decide (k = key) then Some v else dict_get arguments k).
  { intros k. case_bool_decide; subst; done. }
  destruct (truthy v) eqn:Ht; cbn [negb].
  2:{ exists arguments. cbn. rewrite !string_app_nil_r. split_and!; [done..|].
      intros k. rewrite <- (Hsame v); [apply Hkeep|].
      unfold rebound. by rewrite Ht. }
  destruct v as [[|b|z|s]|l]; cbn [isinstance_bool]; try discriminate Ht;
    repeat first [rewrite dict_get_set_eq | rewrite Hv | progress cbn beta iota].
  - destruct (dict_rebind arguments key _ (VStr "") Hv) as [Hk Hg].
    eexists. split; [|split; [exact Hk|]].
    + unfold rebound. rewrite Ht. cbn. by rewrite !string_app_nil_r.
    + intros k. rewrite Hg. apply Hsame. unfold rebound. by rewrite Ht.
  - exists arguments. split_and!; [|done|].
    + unfold rebound. rewrite Ht. cbn. by rewrite !string_app_nil_r.
    + intros k. rewrite <- (Hsame (VInt z)); [apply Hkeep|].
      unfold rebound. by rewrite Ht.
  - exists arguments. split_and!; [|done|].
    + unfold rebound. rewrite Ht. cbn. by rewrite !string_app_nil_r.
    + intros k. rewrite <- (Hsame (VStr s)); [apply Hkeep|].
      unfold rebound. by rewrite Ht.
  - destruct (dict_rebind arguments key _
                (VStr (join "," (str_atom <$> l))) Hv) as [Hk Hg].
    eexists. split; [|split; [exact Hk|]].
    + unfold rebound. rewrite Ht. cbn. by rewrite !string_app_nil_r.
    + intros k. rewrite Hg. apply Hsame. unfold rebound. by rewrite Ht.
Qed.

Lemma emitted_on_cons (arguments : dict) (key : string) (keys : list string) :
  emitted_on arguments (key :: keys) =
  emitted_on arguments [key] ++ emitted_on arguments keys.
Proof. unfold emitted_on. cbn. by destruct (emitted_at arguments key). Qed.

Lemma emitted_on_ext (d1 d2 : dict) (keys : list string) :
  (forall k, k ∈ keys -> dict_get d1 k = dict_get d2 k) ->
  emitted_on d1 keys = emitted_on d2 keys.
Proof.
  unfold emitted_on, emitted_at.
  induction keys as [|key keys IH]; intros Hext; [done|].
  cbn [omap list_omap]. rewrite (Hext key) by (apply elem_of_cons; by left).
  rewrite IH; [done|]. intros k Hk. apply Hext, elem_of_cons. by right.
Qed.

Lemma concat_strings_app (l1 l2 : list string) :
  concat_strings (l1 ++ l2) = concat_strings l1 +:+ concat_strings l2.
Proof.
  unfold concat_strings. induction l1 as [|s l1 IH]; [done|].
  cbn [app foldr]. by rewrite IH, string_app_assoc.
Qed.

(** The whole loop over distinct keys. *)
Lemma build_loop (keys : list string) :
  NoDup keys ->
  forall (command comment : string) (arguments : dict),
  exists arguments',
    foldl build_step (command, comment, arguments) keys =
      (command +:+ concat_strings (command_token <$> emitted_on arguments keys),
       comment +:+ concat_strings (comment_line <$> emitted_on arguments keys),
       arguments') /\
    dict_keys arguments' = dict_keys arguments /\
    forall k, dict_get arguments' k =
              if bool_decide (k ∈ keys) then rebound <$> dict_get arguments k
              else dict_get arguments k.
Proof.
  induction 1 as [|key keys Hkey Hnd IH]; intros command comment arguments.
  - exists arguments. cbn. rewrite !string_app_nil_r. split_and!; [done..|].
    intros k. rewrite bool_decide_eq_false_2; [done|apply not_elem_of_nil].
  - cbn [foldl].
    destruct (build_step_spec command comment arguments key)
      as (a1 & -> & Hk1 & Hg1).
    destruct (IH (command +:+
                    concat_strings (command_token <$> emitted_on arguments [key]))
                 (comment +:+
                    concat_strings (comment_line <$> emitted_on arguments [key]))
                 a1) as (a2 & -> & Hk2 & Hg2).
    assert (Hsame : emitted_on a1 keys = emitted_on arguments keys).
    { apply emitted_on_ext. intros k Hk. rewrite Hg1.
      rewrite bool_decide_eq_false_2; [done|]. by intros ->. }
    exists a2. split_and!.
    + rewrite Hsame, (emitted_on_cons arguments key keys), !fmap_app,
        !concat_strings_app, !string_app_assoc. done.
    + congruence.
    + intros k. rewrite Hg2, Hg1.
      repeat case_bool_decide; subst; try done;
        exfalso; rewrite elem_of_cons in *; tauto.
Qed.

(** ** What a command shows *)

Lemma sorted_keys_NoDup (d : dict) :
  NoDup (dict_keys d) -> NoDup (merge_sort String.le (dict_keys d)).
Proof. intros H. by rewrite merge_sort_Permutation. Qed.

Lemma sorted_keys_elem (d : dict) (k : string) :
  k ∈ merge_sort String.le (dict_keys d) <-> k ∈ dict_keys d.
Proof. by rewrite merge_sort_Permutation. Qed.

(** The text of a command and the mapping it leaves, for a mapping with
    distinct keys. *)
Lemma build_cmsdriver_spec (kind : string) (arguments : dict) :
  NoDup (dict_keys arguments) ->
  (build_cmsdriver kind arguments).1 =
    comment_block kind (emitted arguments) +:+ nl
    +:+ command_block kind (emitted arguments) /\
  dict_keys (build_cmsdriver kind arguments).2 = dict_keys arguments /\
  forall k, dict_get (build_cmsdriver kind arguments).2 k =
            rebound <$> dict_get arguments k.
Proof.
  intros Hnd. unfold build_cmsdriver.
  destruct (build_loop _ (sorted_keys_NoDup _ Hnd)
              ("# Command for " +:+ kind +:+ ":" +:+ nl
               +:+ "cmsDriver.py " +:+ kind)
              ("# Arguments for " +:+ kind +:+ ":" +:+ nl) arguments)
    as (a' & -> & Hk & Hg).
  cbn [fst snd]. split_and!; [|done|].
  - unfold comment_block, command_block, emitted.
    by rewrite !string_app_assoc.
  - intros k. rewrite Hg. case_bool_decide as Hin; [done|].
    rewrite sorted_keys_elem in Hin. apply dict_get_None in Hin.
    by rewrite Hin.
Qed.

Lemma emitted_on_elem (d : dict) (keys : list string) (k t : string) :
  (k, t) ∈ emitted_on d keys <->
  k ∈ keys /\ exists v, dict_get d k = Some v /\ truthy v = true
                        /\ t = py_str (rebound v).
Proof.
  unfold emitted_on. rewrite list_elem_of_omap. unfold emitted_at. split.
  - intros (k' & Hin & He). destruct (dict_get d k') as [v|] eqn:Hv; [|done].
    cbn in He. destruct (truthy v) eqn:Ht; [|done].
    injection He as <- <-. eauto.
  - intros (Hin & v & Hv & Ht & ->). exists k. split; [done|].
    rewrite Hv. cbn. by rewrite Ht.
Qed.

Lemma emitted_elem (d : dict) (k t : string) :
  (k, t) ∈ emitted d <->
  exists v, dict_get d k = Some v /\ truthy v = true /\ t = py_str (rebound v).
Proof.
  unfold emitted. rewrite emitted_on_elem, sorted_keys_elem. split.
  - by intros [_ H].
  - intros (v & Hv & H). split; [|eauto].
    destruct (decide (k ∈ dict_keys d)) as [|Hout]; [done|].
    apply dict_get_None in Hout. congruence.
Qed.

Lemma emitted_key (d : dict) (k : string) :
  k ∈ (emitted d).*1 <-> exists v, dict_get d k = Some v /\ truthy v = true.
Proof.
  rewrite list_elem_of_fmap. split.
  - intros ([k' t] & -> & (v & Hv & Ht & _)%emitted_elem). eauto.
  - intros (v & Hv & Ht). exists (k, py_str (rebound v)). split; [done|].
    apply emitted_elem. eauto.
Qed.

Lemma emitted_on_keys_Forall (R : string -> Prop) (d : dict) (keys : list string) :
  Forall R keys -> Forall R (emitted_on d keys).*1.
Proof.
  unfold emitted_on, emitted_at. induction 1 as [|key keys Hkey _ IH]; [done|].
  cbn [omap list_omap]. destruct (dict_get d key) as [v|]; cbn; [|done].
  destruct (truthy v); [|done]. cbn. by constructor.
Qed.

Lemma emitted_on_keys_sorted (R : relation string) (d : dict) (keys : list string) :
  StronglySorted R keys -> StronglySorted R (emitted_on d keys).*1.
Proof.
  induction 1 as [|key keys Hs IH Hall]; [constructor|].
  rewrite emitted_on_cons, fmap_app.
  unfold emitted_on at 1, emitted_at. cbn [omap list_omap].
  destruct (dict_get d key) as [v|]; cbn; [|done].
  destruct (truthy v); cbn; [|done].
  constructor; [done|]. by apply emitted_on_keys_Forall.
Qed.

Lemma sorted_distinct_strict (keys : list string) :
  Sorted String.le keys -> NoDup keys -> StronglySorted key_lt keys.
Proof.
  intros Hs%Sorted_StronglySorted; [|apply _].
  induction Hs as [|key keys Hs IH Hall]; intros Hnd; [constructor|].
  apply NoDup_cons in Hnd as [Hkey Hnd]. constructor; [auto|].
  rewrite Forall_forall in *. intros k Hk. split; [auto|].
  intros ->. done.
Qed.

(** The keys a command shows are in strictly increasing order. *)
Lemma emitted_sorted (d : dict) :
  NoDup (dict_keys d) -> StronglySorted key_lt (emitted d).*1.
Proof.
  intros Hnd. apply emitted_on_keys_sorted, sorted_distinct_strict.
  - apply Sorted_merge_sort. apply _.
  - by apply sorted_keys_NoDup.
Qed.

(** The order in which the keys were put in the mapping leaves no trace. *)
Lemma emitted_perm (d1 d2 : dict) :
  NoDup (dict_keys d1) -> d1 ≡ₚ d2 -> emitted d1 = emitted d2.
Proof.
  intros Hnd Hp. unfold emitted.
  assert (Hkeys : merge_sort String.le (dict_keys d1) =
                  merge_sort String.le (dict_keys d2)).
  { apply (Sorted_unique String.le); try apply Sorted_merge_sort; try apply _.
    rewrite !merge_sort_Permutation. unfold dict_keys. by rewrite Hp. }
  rewrite <- Hkeys. apply emitted_on_ext. intros k _. by apply dict_get_perm.
Qed.

(** ** Properties of [build_cmsdriver] *)

(** C3: for every kind of step and every argument mapping (its keys
    distinct, as in any mapping), the command text is made of the shown
    arguments, whose keys come in strictly increasing lexicographic
    order; a mapping holding the same entries in another insertion order
    gives the same text; a key is shown exactly when its value is true,
    so that the empty string, 0, [False], the empty list and [None] are
    never shown; a key bound to [True] is shown with an empty value,
    which makes its token the bare flag; a key bound to a list that is
    not empty is shown with the comma-joined text of its elements. *)
Theorem build_cmsdriver_shown_arguments (kind : string) (arguments : dict) :
  NoDup (dict_keys arguments) ->
  let shown := emitted arguments in
  (build_cmsdriver kind arguments).1 =
    comment_block kind shown +:+ nl +:+ command_block kind shown
  /\ StronglySorted key_lt shown.*1
  /\ (forall arguments', arguments' ≡ₚ arguments ->
        (build_cmsdriver kind arguments').1 = (build_cmsdriver kind arguments).1)
  /\ (forall k, k ∈ shown.*1 <->
        exists v, dict_get arguments k = Some v /\ truthy v = true)
  /\ (forall k v, dict_get arguments k = Some v ->
        v ∈ [VStr ""; VInt 0; VBool false; VList []; VNone] -> k ∉ shown.*1)
  /\ (forall k, dict_get arguments k = Some (VBool true) ->
        (k, "") ∈ shown /\ command_token (k, "") = " --" +:+ rstrip k)
  /\ (forall k a l, dict_get arguments k = Some (VList (a :: l)) ->
        (k, join "," (str_atom <$> a :: l)) ∈ shown).
Proof.
  intros Hnd shown.
  destruct (build_cmsdriver_spec kind arguments Hnd) as (Htext & _ & _).
  split_and!.
  - exact Htext.
  - by apply emitted_sorted.
  - intros arguments' Hp.
    assert (Hnd' : NoDup (dict_keys arguments'))
      by (unfold dict_keys; by rewrite Hp).
    destruct (build_cmsdriver_spec kind arguments' Hnd') as (-> & _ & _).
    rewrite Htext. by rewrite (emitted_perm arguments' arguments).
  - apply emitted_key.
  - intros k v Hv Hfalse [v' [Hv' Ht]]%emitted_key.
    assert (v' = v) as -> by congruence.
    repeat (apply elem_of_cons in Hfalse as [->|Hfalse]; [done|]).
    by apply elem_of_nil in Hfalse.
  - intros k Hk. split; [|apply rstrip_flag].
    apply emitted_elem. by exists (VBool true).
  - intros k a l Hk. apply emitted_elem. by exists (VList (a :: l)).
Qed.

Lemma build_cmsdriver_shown_arguments_witness :
  (build_cmsdriver "RECO" sample_arguments).1 =
    comment_block "RECO" (emitted sample_arguments) +:+ nl
    +:+ command_block "RECO" (emitted sample_arguments)
  /\ StronglySorted key_lt (emitted sample_arguments).*1.
Proof.
  assert (Hnd : NoDup (dict_keys sample_arguments))
    by decide_by_computation.
  destruct (build_cmsdriver_shown_arguments "RECO" sample_arguments Hnd)
    as (H1 & H2 & _).
  split; [exact H1|exact H2].
Defined.

(** The sample mapping, and the same entries sorted the other way round,
    give one and the same text. *)
Example build_cmsdriver_sample :
  (build_cmsdriver "RECO" sample_arguments).1 =
    "# Arguments for RECO:" +:+ nl +:+
    "# --data" +:+ nl +:+
    "# --era Run3" +:+ nl +:+
    "# --nThreads 8" +:+ nl +:+
    "# --step RAW2DIGI,RECO" +:+ nl +:+ nl +:+
    "# Command for RECO:" +:+ nl +:+
    "cmsDriver.py RECO --data --era Run3 --nThreads 8 --step RAW2DIGI,RECO"
  /\ (build_cmsdriver "RECO" (reverse sample_arguments)).1 =
     (build_cmsdriver "RECO" sample_arguments).1.
Proof. by vm_compute. Qed.

(** C5: the text of a command is the comment listing, a blank line, and
    the command block.  The command block is the line
    [# Command for kind:] and then the line that starts with
    [cmsDriver.py kind] and goes on with one token per shown argument,
    each a blank, two dashes, the key, a blank and the text of the
    value, blanks at its end stripped (so a flag is the key alone); the
    keys come in strictly increasing lexicographic order.  The comment
    listing has, under its heading, one line for each of the same
    arguments in the same order, the token after a hash sign. *)
Theorem build_cmsdriver_layout (kind : string) (arguments : dict) :
  NoDup (dict_keys arguments) ->
  let shown := emitted arguments in
  (build_cmsdriver kind arguments).1 =
    ("# Arguments for " +:+ kind +:+ ":" +:+ nl
     +:+ concat_strings
           ((fun e => rstrip ("# --" +:+ e.1 +:+ " " +:+ e.2) +:+ nl) <$> shown))
    +:+ nl
    +:+ ("# Command for " +:+ kind +:+ ":" +:+ nl
         +:+ "cmsDriver.py " +:+ kind
         +:+ concat_strings
               ((fun e => rstrip (" --" +:+ e.1 +:+ " " +:+ e.2)) <$> shown))
  /\ StronglySorted key_lt shown.*1
  /\ (forall k t, (k, t) ∈ shown <->
        exists v, dict_get arguments k = Some v /\ truthy v = true /\
                  t = match v with
                      | VAtom (ABool _) => ""
                      | VAtom a => str_atom a
                      | VList l => join "," (str_atom <$> l)
                      end)
  /\ (forall k, rstrip (" --" +:+ k +:+ " " +:+ "") = " --" +:+ rstrip k).
Proof.
  intros Hnd shown.
  destruct (build_cmsdriver_spec kind arguments Hnd) as (Htext & _ & _).
  split_and!.
  - exact Htext.
  - by apply emitted_sorted.
  - intros k t. unfold shown. rewrite emitted_elem.
    split; intros (v & Hv & Ht & ->); exists v; split_and!; try done;
      unfold rebound; rewrite Ht; by destruct v as [[]|].
  - apply rstrip_flag.
Qed.

Lemma build_cmsdriver_layout_witness :
  StronglySorted key_lt (emitted reco_sequence).*1.
Proof.
  assert (Hnd : NoDup (dict_keys reco_sequence))
    by decide_by_computation.
  exact (proj1 (proj2 (build_cmsdriver_layout "RECO" reco_sequence Hnd))).
Defined.

(** C10: [build_cmsdriver] leaves the mapping with the same keys in the
    same order, where a key that was bound to [True] is bound to the
    empty string, a key that was bound to a list that is not empty is
    bound to the comma-joined text of its elements, and a key bound to a
    false value, or to a number or a string, is bound as before. *)
Theorem build_cmsdriver_rebinds (kind : string) (arguments : dict) :
  NoDup (dict_keys arguments) ->
  let after := (build_cmsdriver kind arguments).2 in
  dict_keys after = dict_keys arguments /\
  forall k,
    (dict_get arguments k = Some (VBool true) ->
       dict_get after k = Some (VStr ""))
    /\ (forall a l, dict_get arguments k = Some (VList (a :: l)) ->
          dict_get after k = Some (VStr (join "," (str_atom <$> a :: l))))
    /\ (forall v, dict_get arguments k = Some v -> truthy v = false ->
          dict_get after k = Some v)
    /\ (forall z, dict_get arguments k = Some (VInt z) ->
          dict_get after k = Some (VInt z))
    /\ (forall s, dict_get arguments k = Some (VStr s) ->
          dict_get after k = Some (VStr s))
    /\ (dict_get arguments k = None -> dict_get after k = None).
Proof.
  intros Hnd after.
  destruct (build_cmsdriver_spec kind arguments Hnd) as (_ & Hkeys & Hget).
  split; [exact Hkeys|]. intros k. unfold after. rewrite Hget.
  split_and!.
  - by intros ->.
  - by intros a l ->.
  - intros v -> Ht. cbn. unfold rebound. by rewrite Ht.
  - intros z ->. cbn. unfold rebound. by destruct (truthy _).
  - intros s' ->. cbn. unfold rebound. by destruct (truthy _).
  - by intros ->.
Qed.

Lemma build_cmsdriver_rebinds_witness :
  (build_cmsdriver "RECO" sample_arguments).2 =
  [("step", VStr "RAW2DIGI,RECO");
   ("nThreads", VInt 8);
   ("data", VStr "");
   ("customise", VStr "");
   ("era", VStr "Run3");
   ("datatier", VList []);
   ("extra", VNone);
   ("no_exec", VBool false);
   ("nStreams", VInt 0)]
  /\ dict_keys (build_cmsdriver "RECO" sample_arguments).2 =
     dict_keys sample_arguments.
Proof.
  assert (Hnd : NoDup (dict_keys sample_arguments))
    by decide_by_computation.
  split; [by vm_compute|].
  exact (proj1 (build_cmsdriver_rebinds "RECO" sample_arguments Hnd)).
Defined.

(** The caller sees the rebound values: [get_cmsdriver] reads the era of
    the harvesting command in the mapping the primary command left, where
    an era given as the list of [Run3] and [extra] is by then the text
    [Run3,extra], of which [split] takes [Run3]. *)
Example harvesting_reads_rebound_era :
  let r := sample_request [dqm_sequence_with_era_list] in
  let after :=
    (build_cmsdriver "RECO"
       (cmsdriver_arguments r dqm_sequence_with_era_list 0 VNone)).2 in
  dict_get after "era" = Some (VStr "Run3,extra")
  /\ harvesting_arguments after (Some "HARVESTING") "ABC-123" =
     Ok (harvesting_dict (VStr "auto:run3") (VStr "pp") "HARVESTING" "Run3"
           "ABC-123")
  /\ first_token (VList [AStr "Run3"; AStr "extra"]) = Err AttributeError.
Proof. by vm_compute. Qed.

(** ** Sequence names and file arguments *)

(** C4: for a request whose prepid is [p] and which has [n] sequences,
    the name of the sequence at index [i] is [p], an underscore and the
    decimal text of [i] for every [i] other than [n - 1], and [p] alone
    for [i = n - 1]. *)
Theorem get_sequence_name_spec (r : Request) (p : string) (i : Z) :
  get_prepid r = VStr p ->
  let n := Z.of_nat (length (sequences r)) in
  (i <> n - 1 -> get_sequence_name r i = p +:+ "_" +:+ pretty i)%Z
  /\ (i = n - 1 -> get_sequence_name r i = p)%Z.
Proof.
  intros Hp n. unfold get_sequence_name. fold n. rewrite Hp. cbn [py_str str_atom].
  split; intros Hi.
  - by apply Z.eqb_neq in Hi as ->.
  - by apply Z.eqb_eq in Hi as ->.
Qed.

Lemma get_sequence_name_witness :
  get_sequence_name (sample_request [reco_sequence; dqm_sequence]) 0 = "ABC-123_0"
  /\ get_sequence_name (sample_request [reco_sequence; dqm_sequence]) 1 = "ABC-123".
Proof.
  pose proof (get_sequence_name_spec
                (sample_request [reco_sequence; dqm_sequence]) "ABC-123")
    as H.
  split.
  - apply (H 0%Z eq_refl). by vm_compute.
  - apply (H 1%Z eq_refl). by vm_compute.
Defined.

Lemma cmsdriver_arguments_get (r : Request) (sequence_json : dict) (i : Z)
    (overwrite_input : pyval) (k : string) :
  k ∉ ["config_id"; "harvesting_config_id"; "filein"; "fileout";
       "python_filename"; "data"; "no_exec"; "runUnscheduled"] ->
  dict_get (cmsdriver_arguments r sequence_json i overwrite_input) k =
  dict_get sequence_json k.
Proof.
  intros Hk. unfold cmsdriver_arguments.
  repeat (apply not_elem_of_cons in Hk as [? Hk]).
  rewrite !dict_get_set_ne by done.
  assert (Hdel : forall d k', k <> k' ->
    dict_get (if dict_in k' d then dict_del d k' else d) k = dict_get d k).
  { intros d k' Hkk. destruct (dict_in k' d); [|done]. by apply dict_get_del_ne. }
  destruct (truthy overwrite_input); [|destruct (i =? 0)%Z];
    rewrite dict_get_set_ne by done; rewrite !Hdel by done; done.
Qed.

Lemma cmsdriver_arguments_NoDup (r : Request) (sequence_json : dict) (i : Z)
    (overwrite_input : pyval) :
  NoDup (dict_keys sequence_json) ->
  NoDup (dict_keys (cmsdriver_arguments r sequence_json i overwrite_input)).
Proof.
  intros Hnd. unfold cmsdriver_arguments.
  assert (Hdel : forall d k', NoDup (dict_keys d) ->
    NoDup (dict_keys (if dict_in k' d then dict_del d k' else d))).
  { intros d k' Hd. destruct (dict_in k' d); [|done]. by apply dict_del_NoDup. }
  repeat apply dict_set_NoDup.
  destruct (truthy overwrite_input); [|destruct (i =? 0)%Z];
    apply dict_set_NoDup; by repeat apply Hdel.
Qed.

Lemma quoted_truthy (s : string) : truthy (VStr (dquote +:+ s)) = true.
Proof. done. Qed.

(** What [get_cmsdriver] returns begins with the primary command, built
    from the mapping [cmsdriver_arguments] prepares. *)
Lemma get_cmsdriver_primary (D : list atom) (r : Request) (i : Z)
    (overwrite_input : pyval) (sequence_json : dict) (out : string) :
  py_index (sequences r) i = Ok sequence_json ->
  get_cmsdriver D r i overwrite_input = Ok out ->
  exists tail,
    out = (build_cmsdriver "RECO"
             (cmsdriver_arguments r sequence_json i overwrite_input)).1
          +:+ tail.
Proof.
  intros Hseq. unfold get_cmsdriver. rewrite Hseq. cbn [mbind result_bind].
  destruct (build_cmsdriver "RECO" _) as [text after]. cbn [fst].
  destruct (needs_harvesting D sequence_json).
  - destruct (harvesting_step _) as [step|]; cbn; [|done].
    destruct (harvesting_arguments _ _ _) as [hd|]; cbn; [|done].
    intros [= <-]. eauto.
  - intros [= <-]. exists "". by rewrite string_app_nil_r.
Qed.

(** C1: for a request and an index [i] at which it has a sequence,
    compiling with no overwrite input gives the primary command a
    [filein] that is, for [i = 0], the request's input dataset as a
    quoted [dbs:] reference and, for any other [i], the name of the
    sequence at [i - 1] with [.root] as a quoted [file:] reference, and a
    [fileout] that is the name of the sequence at [i] with [.root] as a
    quoted [file:] reference; both are among the arguments the command
    shows. *)
Theorem get_cmsdriver_files (D : list atom) (r : Request) (i : Z)
    (sequence_json : dict) :
  py_index (sequences r) i = Ok sequence_json ->
  let arguments := cmsdriver_arguments r sequence_json i VNone in
  let filein :=
    if (i =? 0)%Z
    then dquote +:+ "dbs:" +:+ py_str (get_input_dataset r) +:+ dquote
    else dquote +:+ "file:" +:+ get_sequence_name r (i - 1) +:+ ".root"
         +:+ dquote in
  let fileout :=
    dquote +:+ "file:" +:+ get_sequence_name r i +:+ ".root" +:+ dquote in
  dict_get arguments "filein" = Some (VStr filein)
  /\ dict_get arguments "fileout" = Some (VStr fileout)
  /\ ("filein", filein) ∈ emitted arguments
  /\ ("fileout", fileout) ∈ emitted arguments
  /\ (forall out, get_cmsdriver D r i VNone = Ok out ->
        exists tail, out = (build_cmsdriver "RECO" arguments).1 +:+ tail).
Proof.
  intros Hseq arguments filein fileout.
  assert (Hin : dict_get arguments "filein" = Some (VStr filein)).
  { unfold arguments, cmsdriver_arguments. cbn [truthy].
    rewrite !dict_get_set_ne by done. unfold filein.
    destruct (i =? 0)%Z; by rewrite dict_get_set_eq, ?string_app_assoc. }
  assert (Hout : dict_get arguments "fileout" = Some (VStr fileout)).
  { unfold arguments, cmsdriver_arguments.
    rewrite !dict_get_set_ne by done. by rewrite dict_get_set_eq. }
  split_and!; [done|done| | |].
  - apply emitted_elem. exists (VStr filein). split_and!; [done| |].
    + unfold filein. destruct (i =? 0)%Z; apply quoted_truthy.
    + unfold rebound, filein. by destruct (i =? 0)%Z.
  - apply emitted_elem. exists (VStr fileout). split_and!; [done| |].
    + apply quoted_truthy.
    + done.
  - intros out. by apply get_cmsdriver_primary.
Qed.

Lemma get_cmsdriver_files_witness :
  dict_get (cmsdriver_arguments (sample_request [reco_sequence; reco_sequence])
              reco_sequence 1 VNone) "filein"
    = Some (VStr (dquote +:+ "file:ABC-123_0.root" +:+ dquote))
  /\ dict_get (cmsdriver_arguments (sample_request [reco_sequence; reco_sequence])
                 reco_sequence 1 VNone) "fileout"
    = Some (VStr (dquote +:+ "file:ABC-123.root" +:+ dquote)).
Proof.
  destruct (get_cmsdriver_files []
              (sample_request [reco_sequence; reco_sequence]) 1 reco_sequence
              eq_refl) as (H1 & H2 & _).
  split; [exact H1|exact H2].
Defined.

(** A request with one sequence and no [DQM] step: one command block,
    reading the input dataset and writing [ABC-123.root]. *)
Example get_cmsdriver_single_sequence :
  get_cmsdriver [] (sample_request [reco_sequence]) 0 VNone =
  Ok ("# Arguments for RECO:" +:+ nl +:+
      "# --conditions auto:run3" +:+ nl +:+
      "# --data" +:+ nl +:+
      "# --era Run3" +:+ nl +:+
      "# --filein " +:+ dquote +:+ "dbs:/X/Y/Z" +:+ dquote +:+ nl +:+
      "# --fileout " +:+ dquote +:+ "file:ABC-123.root" +:+ dquote +:+ nl +:+
      "# --nThreads 8" +:+ nl +:+
      "# --no_exec" +:+ nl +:+
      "# --python_filename " +:+ dquote +:+ "ABC-123_0_cfg.py" +:+ dquote +:+ nl +:+
      "# --runUnscheduled" +:+ nl +:+
      "# --scenario pp" +:+ nl +:+
      "# --step RAW2DIGI,RECO" +:+ nl +:+ nl +:+
      "# Command for RECO:" +:+ nl +:+
      "cmsDriver.py RECO --conditions auto:run3 --data --era Run3 --filein " +:+
      dquote +:+ "dbs:/X/Y/Z" +:+ dquote +:+ " --fileout " +:+
      dquote +:+ "file:ABC-123.root" +:+ dquote +:+
      " --nThreads 8 --no_exec --python_filename " +:+
      dquote +:+ "ABC-123_0_cfg.py" +:+ dquote +:+
      " --runUnscheduled --scenario pp --step RAW2DIGI,RECO").
Proof. by vm_compute. Qed.

(** A request with two sequences: the first writes [ABC-123_0.root], the
    second reads it and writes [ABC-123.root]. *)
Example get_cmsdriver_two_sequences :
  let r := sample_request [reco_sequence; reco_sequence] in
  dict_get (cmsdriver_arguments r reco_sequence 0 VNone) "fileout"
    = Some (VStr (dquote +:+ "file:ABC-123_0.root" +:+ dquote))
  /\ dict_get (cmsdriver_arguments r reco_sequence 1 VNone) "filein"
    = Some (VStr (dquote +:+ "file:ABC-123_0.root" +:+ dquote))
  /\ dict_get (cmsdriver_arguments r reco_sequence 1 VNone) "fileout"
    = Some (VStr (dquote +:+ "file:ABC-123.root" +:+ dquote)).
Proof. by vm_compute. Qed.

(** ** Harvesting *)

Lemma prefix_drop (p s : string) :
  String.prefix p s = true -> s = p +:+ string_drop (String.length p) s.
Proof.
  revert s. induction p as [|c p IH]; intros s; [done|].
  destruct s as [|c' s]; cbn; [done|].
  destruct (Ascii.ascii_dec c c') as [->|]; [|done].
  intros H. rewrite string_app_cons. f_equal. by apply IH.
Qed.

Lemma prefix_app (p s : string) : String.prefix p (p +:+ s) = true.
Proof.
  induction p as [|c p IH]; [by destruct s|].
  rewrite string_app_cons. cbn. by destruct (Ascii.ascii_dec c c).
Qed.

Lemma replace_first_prefix (old new s : string) :
  String.prefix old s = true ->
  replace_first old new s = new +:+ string_drop (String.length old) s.
Proof. intros H. destruct s; cbn [replace_first]; by rewrite H. Qed.

Lemma is_dqm_step_name (s : string) :
  is_dqm_step (AStr s) = true <-> dqm_name s.
Proof.
  unfold is_dqm_step, dqm_name, startswith.
  rewrite orb_true_iff, String.eqb_eq. split; (intros [H|H]; [by left|right]).
  - eexists. by apply prefix_drop.
  - destruct H as [rest ->]. apply prefix_app.
Qed.

Lemma dqm_name_decidable (s : string) : dqm_name s \/ ~ dqm_name s.
Proof.
  destruct (is_dqm_step (AStr s)) eqn:H.
  - left. by apply is_dqm_step_name.
  - right. intros Hs%is_dqm_step_name. congruence.
Qed.

Lemma harvesting_label_bare : harvesting_label "DQM" = "HARVESTING".
Proof. done. Qed.

Lemma harvesting_label_prefixed (rest : string) :
  harvesting_label ("DQM:" +:+ rest) = "HARVESTING:" +:+ rest.
Proof. done. Qed.

Lemma needs_harvesting_names (names : list string) :
  existsb is_dqm_step (AStr <$> names) = true <-> Exists dqm_name names.
Proof.
  induction names as [|s names IH]; cbn [fmap list_fmap existsb].
  - split; [done|]. by intros H%Exists_nil.
  - rewrite orb_true_iff, Exists_cons, IH, is_dqm_step_name. done.
Qed.

Lemma harvesting_step_at (s : string) (rest : list atom) :
  dqm_name s ->
  harvesting_step (AStr s :: rest) = Ok (Some (harvesting_label s)).
Proof.
  intros Hs. cbn [harvesting_step]. unfold atom_eqb, harvesting_label. cbn.
  destruct (String.eqb_spec s "DQM") as [->|Hne]; [done|].
  rewrite bool_decide_eq_false_2 by congruence.
  destruct Hs as [?|[t ->]]; [done|].
  unfold startswith. rewrite prefix_app.
  by rewrite replace_first_prefix by apply prefix_app.
Qed.

Lemma harvesting_step_skip (s : string) (rest : list atom) :
  ~ dqm_name s -> harvesting_step (AStr s :: rest) = harvesting_step rest.
Proof.
  intros Hs. cbn [harvesting_step]. unfold atom_eqb. cbn.
  rewrite <- is_dqm_step_name in Hs. unfold is_dqm_step in Hs.
  apply not_true_is_false, orb_false_iff in Hs as [H1 H2].
  apply String.eqb_neq in H1.
  rewrite bool_decide_eq_false_2 by congruence. by rewrite H2.
Qed.

(** The loop stops at the first step name that asks for harvesting. *)
Lemma harvesting_step_first (pre : list string) (s : string) (post : list string) :
  Forall (fun s => ~ dqm_name s) pre -> dqm_name s ->
  harvesting_step (AStr <$> pre ++ s :: post) = Ok (Some (harvesting_label s)).
Proof.
  intros Hpre Hs. induction Hpre as [|s' pre Hs' _ IH]; cbn [app fmap list_fmap].
  - by apply harvesting_step_at.
  - by rewrite harvesting_step_skip.
Qed.

Lemma first_match {A : Type} (P : A -> Prop) (l : list A) :
  (forall x, P x \/ ~ P x) ->
  Exists P l ->
  exists pre x post, l = pre ++ x :: post /\ Forall (fun x => ~ P x) pre /\ P x.
Proof.
  intros Hdec. induction l as [|y l IH]; intros HE; [by apply Exists_nil in HE|].
  destruct (Hdec y) as [Hy|Hy].
  - by exists [], y, l.
  - apply Exists_cons in HE as [?|HE]; [done|].
    destruct (IH HE) as (pre & x & post & -> & Hpre & Hx).
    exists (y :: pre), x, post. split_and!; [done| |done]. by constructor.
Qed.

Lemma rebound_str (s : string) : rebound (VStr s) = VStr s.
Proof. unfold rebound. by destruct (truthy _). Qed.

(** [get_cmsdriver] for a sequence that is there and whose [step] is a
    list of names. *)
Lemma get_cmsdriver_unfold (D : list atom) (r : Request) (i : Z)
    (overwrite_input : pyval) (sequence_json : dict) (names : list string) :
  py_index (sequences r) i = Ok sequence_json ->
  dict_get sequence_json "step" = Some (VList (AStr <$> names)) ->
  get_cmsdriver D r i overwrite_input =
  let built :=
    build_cmsdriver "RECO"
      (cmsdriver_arguments r sequence_json i overwrite_input) in
  if existsb is_dqm_step (AStr <$> names) then
    step ← harvesting_step (AStr <$> names);
    hd ← harvesting_arguments built.2 step (get_sequence_name r i);
    Ok (built.1 +:+ nl +:+ nl +:+ (build_cmsdriver "HARVESTING" hd).1)
  else Ok built.1.
Proof.
  intros Hseq Hstep. unfold get_cmsdriver, needs_harvesting, Sequence_get_step.
  rewrite Hseq. cbn [mbind result_bind]. rewrite Hstep. cbn zeta.
  by destruct (build_cmsdriver "RECO" _).
Qed.

(** What the harvesting command reads in the primary mapping, for a key
    of the sequence that [get_cmsdriver] neither removes nor sets. *)
Lemma primary_mapping_get (r : Request) (sequence_json : dict) (i : Z)
    (overwrite_input : pyval) (k : string) :
  NoDup (dict_keys sequence_json) ->
  k ∉ ["config_id"; "harvesting_config_id"; "filein"; "fileout";
       "python_filename"; "data"; "no_exec"; "runUnscheduled"] ->
  dict_get (build_cmsdriver "RECO"
              (cmsdriver_arguments r sequence_json i overwrite_input)).2 k =
  rebound <$> dict_get sequence_json k.
Proof.
  intros Hnd Hk.
  destruct (build_cmsdriver_spec "RECO"
              (cmsdriver_arguments r sequence_json i overwrite_input))
    as (_ & _ & ->); [by apply cmsdriver_arguments_NoDup|].
  by rewrite cmsdriver_arguments_get.
Qed.

Lemma harvesting_step_found (names : list string) :
  Exists dqm_name names ->
  exists label, harvesting_step (AStr <$> names) = Ok (Some label).
Proof.
  intros (pre & s & post & -> & Hpre & Hs)%first_match;
    [|apply dqm_name_decidable].
  eexists. by apply harvesting_step_first.
Qed.

(** C2: for a sequence at an index of the request, whose mapping has
    distinct keys, a list of step names under [step] and strings under
    [conditions], [era] and [scenario]: when no step name is [DQM] or
    starts with [DQM:], compiling returns the primary command alone; when
    some step name is, compiling returns the primary command, a blank
    line, and a harvesting command whose label comes from the first such
    name in the order of the list ([HARVESTING] for [DQM], the name with
    [HARVESTING:] in place of [DQM:] otherwise) and whose arguments are
    the same conditions and scenario, the era up to its first comma,
    [data] and [no_exec] set, a [filein] named after the sequence with
    [_inDQM], and a script name with [_harvest].  So a second command is
    appended exactly when such a step name exists. *)
Theorem get_cmsdriver_harvesting (D : list atom) (r : Request) (i : Z)
    (overwrite_input : pyval) (sequence_json : dict) (names : list string)
    (c e sc : string) :
  py_index (sequences r) i = Ok sequence_json ->
  NoDup (dict_keys sequence_json) ->
  dict_get sequence_json "step" = Some (VList (AStr <$> names)) ->
  dict_get sequence_json "conditions" = Some (VStr c) ->
  dict_get sequence_json "era" = Some (VStr e) ->
  dict_get sequence_json "scenario" = Some (VStr sc) ->
  let primary :=
    (build_cmsdriver "RECO"
       (cmsdriver_arguments r sequence_json i overwrite_input)).1 in
  let harvesting label :=
    (build_cmsdriver "HARVESTING"
       (harvesting_dict (VStr c) (VStr sc) label (split_first "," e)
          (get_sequence_name r i))).1 in
  (Forall (fun s => ~ dqm_name s) names ->
     get_cmsdriver D r i overwrite_input = Ok primary)
  /\ (forall pre s post,
        names = pre ++ s :: post ->
        Forall (fun s => ~ dqm_name s) pre -> dqm_name s ->
        get_cmsdriver D r i overwrite_input =
        Ok (primary +:+ nl +:+ nl +:+ harvesting (harvesting_label s)))
  /\ harvesting_label "DQM" = "HARVESTING"
  /\ (forall rest, harvesting_label ("DQM:" +:+ rest) = "HARVESTING:" +:+ rest)
  /\ (get_cmsdriver D r i overwrite_input <> Ok primary <->
      Exists dqm_name names).
Proof.
  intros Hseq Hnd Hstep Hc He Hsc primary harvesting.
  pose proof (get_cmsdriver_unfold D r i overwrite_input _ _ Hseq Hstep)
    as Hrun.
  cbn zeta in Hrun. fold primary in Hrun.
  assert (Hargs : forall label,
    harvesting_arguments
      (build_cmsdriver "RECO"
         (cmsdriver_arguments r sequence_json i overwrite_input)).2
      (Some label) (get_sequence_name r i) =
    Ok (harvesting_dict (VStr c) (VStr sc) label (split_first "," e)
          (get_sequence_name r i))).
  { intros label. unfold harvesting_arguments, dict_item.
    rewrite !primary_mapping_get
      by (done || decide_by_computation).
    rewrite Hc, He, Hsc. cbn. by rewrite !rebound_str. }
  assert (Hnone : Forall (fun s => ~ dqm_name s) names ->
                  get_cmsdriver D r i overwrite_input = Ok primary).
  { intros Hall. rewrite Hrun.
    destruct (existsb is_dqm_step (AStr <$> names)) eqn:Hex; [|done].
    apply needs_harvesting_names, Exists_exists in Hex as (s & Hin & Hs).
    rewrite Forall_forall in Hall. by destruct (Hall s Hin). }
  assert (Hsome : forall pre s post,
    names = pre ++ s :: post ->
    Forall (fun s => ~ dqm_name s) pre -> dqm_name s ->
    get_cmsdriver D r i overwrite_input =
    Ok (primary +:+ nl +:+ nl +:+ harvesting (harvesting_label s))).
  { intros pre s post -> Hpre Hs. rewrite Hrun.
    rewrite (proj2 (needs_harvesting_names _)).
    2:{ apply Exists_app. right. by apply Exists_cons_hd. }
    rewrite harvesting_step_first by done. cbn [mbind result_bind].
    by rewrite Hargs. }
  split_and!; [done|done|done|done|]. split.
  - intros Hne.
    destruct (existsb is_dqm_step (AStr <$> names)) eqn:Hex;
      [by apply needs_harvesting_names|].
    destruct Hne. apply Hnone, Forall_Exists_neg.
    intros Hyes%needs_harvesting_names. congruence.
  - intros (pre & s & post & Hn & Hpre & Hs)%first_match;
      [|apply dqm_name_decidable].
    rewrite (Hsome pre s post Hn Hpre Hs). intros [= Heq].
    rewrite <- (string_app_nil_r primary) in Heq at 2.
    by apply (inj (String.append primary)) in Heq.
Qed.

Lemma get_cmsdriver_harvesting_witness :
  get_cmsdriver [] (sample_request [dqm_sequence]) 0 VNone =
  Ok ((build_cmsdriver "RECO"
         (cmsdriver_arguments (sample_request [dqm_sequence]) dqm_sequence 0
            VNone)).1
      +:+ nl +:+ nl
      +:+ (build_cmsdriver "HARVESTING"
             (harvesting_dict (VStr "auto:run3") (VStr "pp")
                "HARVESTING:dqmHarvesting" "Run3" "ABC-123")).1).
Proof.
  assert (Hnd : NoDup (dict_keys dqm_sequence))
    by decide_by_computation.
  assert (Hpre : Forall (fun s => ~ dqm_name s) ["RAW2DIGI"]).
  { constructor; [|constructor].
    intros H%is_dqm_step_name. vm_compute in H. discriminate H. }
  assert (Hs : dqm_name "DQM:dqmHarvesting")
    by (right; by exists "dqmHarvesting").
  destruct (get_cmsdriver_harvesting [] (sample_request [dqm_sequence]) 0 VNone
              dqm_sequence ["RAW2DIGI"; "DQM:dqmHarvesting"; "DQM"]
              "auto:run3" "Run3,extra" "pp"
              eq_refl Hnd eq_refl eq_refl eq_refl eq_refl) as (_ & H & _).
  exact (H ["RAW2DIGI"] "DQM:dqmHarvesting" ["DQM"] eq_refl Hpre Hs).
Defined.

(** A sequence with the steps [RAW2DIGI], [DQM:dqmHarvesting] and [DQM]
    and the era [Run3,extra]: the harvesting command has the step
    [HARVESTING:dqmHarvesting] and the era [Run3]. *)
Example get_cmsdriver_with_harvesting :
  exists primary,
  get_cmsdriver [] (sample_request [dqm_sequence]) 0 VNone =
  Ok (primary +:+ nl +:+ nl +:+
      "# Arguments for HARVESTING:" +:+ nl +:+
      "# --conditions auto:run3" +:+ nl +:+
      "# --data" +:+ nl +:+
      "# --era Run3" +:+ nl +:+
      "# --filein " +:+ dquote +:+ "file:ABC-123_inDQM.root" +:+ dquote +:+ nl +:+
      "# --no_exec" +:+ nl +:+
      "# --python_filename " +:+ dquote +:+ "ABC-123_harvest_cfg.py" +:+ dquote +:+ nl +:+
      "# --scenario pp" +:+ nl +:+
      "# --step HARVESTING:dqmHarvesting" +:+ nl +:+ nl +:+
      "# Command for HARVESTING:" +:+ nl +:+
      "cmsDriver.py HARVESTING --conditions auto:run3 --data --era Run3 --filein " +:+
      dquote +:+ "file:ABC-123_inDQM.root" +:+ dquote +:+
      " --no_exec --python_filename " +:+
      dquote +:+ "ABC-123_harvest_cfg.py" +:+ dquote +:+
      " --scenario pp --step HARVESTING:dqmHarvesting").
Proof.
  exists (build_cmsdriver "RECO"
            (cmsdriver_arguments (sample_request [dqm_sequence]) dqm_sequence 0
               VNone)).1.
  by vm_compute.
Qed.

(** ** Failures of [get_cmsdriver] *)











(** ** Assignment of attributes *)

Section Assignment.

Variable ModelBase_lambda_checks : string -> option (pyval -> result bool).
Variable matches_regex : pyval -> string -> result bool.

Local Abbreviation assign :=
  (ModelBase_set ModelBase_lambda_checks matches_regex).

(** A priority within the bounds is stored and returned. *)
Lemma set_priority_in_range (r : Request) (z : Z) :
  (1000 <= z <= 1000000)%Z ->
  assign r "priority" (VInt z) =
  (mkRequest (dict_set (json r) "priority" (VInt z)) (sequences r),
   Ok (VInt z)).
Proof.
  intros [Hlo Hhi]. unfold ModelBase_set, valid, passes. cbn.
  apply Z.leb_le in Hlo, Hhi. by rewrite Hlo, Hhi.
Qed.

(** C8: for every request, assigning to [priority] an integer below 1000
    or above 1000000 fails with a [ValidationError] that carries the
    name [priority] and the value, and the request after the call is the
    request before it, so the stored priority is the one it had. *)
Theorem set_priority_out_of_range (r : Request) (z : Z) :
  (z < 1000 \/ 1000000 < z)%Z ->
  assign r "priority" (VInt z) =
    (r, Err (ValidationError "priority" (VInt z)))
  /\ dict_get (json (assign r "priority" (VInt z)).1) "priority" =
     dict_get (json r) "priority".
Proof.
  intros Hz.
  assert (H : assign r "priority" (VInt z) =
              (r, Err (ValidationError "priority" (VInt z)))).
  { unfold ModelBase_set, valid, passes. cbn.
    destruct (Z.leb_spec 1000 z), (Z.leb_spec z 1000000); try done; lia. }
  by rewrite H.
Qed.

(** What [runs] holds after the assignment of two equal strings. *)
Lemma set_runs_duplicate_strings (r : Request) :
  assign r "runs" (VList [AStr "5"; AStr "5"]) =
  (mkRequest (dict_set (json r) "runs" (VList [AInt 5; AInt 5])) (sequences r),
   Ok (VList [AInt 5; AInt 5])).
Proof. by vm_compute. Qed.

End Assignment.

Lemma set_priority_out_of_range_witness :
  ModelBase_set (fun _ => None) (fun _ _ => Ok true)
    (sample_request []) "priority" (VInt 500)
  = (sample_request [], Err (ValidationError "priority" (VInt 500))).
Proof.
  apply (set_priority_out_of_range (fun _ => None) (fun _ _ => Ok true)
           (sample_request []) 500).
  left. lia.
Defined.

(** ** Normalisation of [runs] *)

Lemma py_in_ints (z : Z) (seen : list Z) :
  py_in (AInt z) (AInt <$> seen) = bool_decide (z ∈ seen).
Proof.
  unfold py_in. induction seen as [|x seen IH]; [done|].
  cbn [fmap list_fmap existsb]. rewrite IH. unfold atom_eqb. cbn.
  destruct (Z.eqb_spec z x) as [->|Hne].
  - symmetry. apply bool_decide_eq_true_2, elem_of_cons. by left.
  - cbn. apply bool_decide_ext. rewrite elem_of_cons. tauto.
Qed.

(** On integers the loop keeps the first occurrence of each run. *)
Lemma normalise_runs_ints (seen l : list Z) :
  normalise_runs (AInt <$> seen) (AInt <$> l) =
  Ok (AInt <$> (seen ++ first_occurrences seen l)).
Proof.
  revert seen. induction l as [|z l IH]; intros seen.
  - cbn. by rewrite app_nil_r.
  - cbn [fmap list_fmap normalise_runs first_occurrences].
    rewrite py_in_ints. case_bool_decide as Hz; cbn [negb].
    + apply IH.
    + cbn [py_int mbind result_bind].
      replace ((AInt <$> seen) ++ [AInt z]) with (AInt <$> (seen ++ [z]))
        by by rewrite fmap_app.
      rewrite IH. by rewrite <- app_assoc.
Qed.

Lemma first_occurrences_elem (seen l : list Z) (x : Z) :
  x ∈ first_occurrences seen l -> (x ∉ seen) /\ (x ∈ l).
Proof.
  revert seen. induction l as [|z l IH]; intros seen; cbn.
  - by intros ?%elem_of_nil.
  - case_bool_decide as Hz.
    + intros [? ?]%IH. split; [done|]. apply elem_of_cons. by right.
    + intros [->|[Hx ?]%IH]%elem_of_cons.
      * split; [done|]. apply elem_of_cons. by left.
      * split; [|apply elem_of_cons; by right].
        intros ?. apply Hx, elem_of_app. by left.
Qed.

Lemma first_occurrences_NoDup (seen l : list Z) :
  NoDup (first_occurrences seen l).
Proof.
  revert seen. induction l as [|z l IH]; intros seen; cbn; [constructor|].
  case_bool_decide; [done|]. constructor; [|done].
  intros [Hz _]%first_occurrences_elem. apply Hz, elem_of_app. right.
  by apply list_elem_of_singleton.
Qed.

Lemma first_occurrences_distinct (seen l : list Z) :
  NoDup l -> (forall x, x ∈ l -> x ∉ seen) -> first_occurrences seen l = l.
Proof.
  revert seen. induction l as [|z l IH]; intros seen Hnd Hfresh; [done|].
  apply NoDup_cons in Hnd as [Hz Hnd]. cbn.
  rewrite bool_decide_eq_false_2 by (apply Hfresh, elem_of_cons; by left).
  f_equal. apply IH; [done|]. intros x Hx [Hs|Hs%list_elem_of_singleton]%elem_of_app.
  - by apply (Hfresh x); [apply elem_of_cons; right|].
  - by subst.
Qed.

(** On a list of integers, [runs] is normalised to the first
    occurrences, and normalising the result again changes nothing. *)
Lemma runs_of_ints (l : list Z) :
  before_attribute_check "runs" (VList (AInt <$> l)) =
    Ok (VList (AInt <$> first_occurrences [] l))
  /\ before_attribute_check "runs" (VList (AInt <$> first_occurrences [] l)) =
    Ok (VList (AInt <$> first_occurrences [] l)).
Proof.
  assert (H : forall l', before_attribute_check "runs" (VList (AInt <$> l')) =
                         Ok (VList (AInt <$> first_occurrences [] l'))).
  { intros l'. unfold before_attribute_check. cbn [String.eqb py_iter].
    cbn [mbind result_bind]. change (@nil atom) with (AInt <$> @nil Z).
    by rewrite normalise_runs_ints. }
  split; [apply H|]. rewrite H. do 3 f_equal.
  apply first_occurrences_distinct; [apply first_occurrences_NoDup|].
  intros x _. apply not_elem_of_nil.
Qed.

(** Assigning the runs 5, 5, 3, 5 stores 5, 3. *)
Example runs_of_5_5_3_5 :
  before_attribute_check "runs" (VList [AInt 5; AInt 5; AInt 3; AInt 5]) =
  Ok (VList [AInt 5; AInt 3]).
Proof. by vm_compute. Qed.

(** C6 at a list the claim fails on: the runs given as the strings 5 and
    5 are normalised to the integers 5 and 5, the duplicate kept: the
    second string is compared with the integer already stored, and a
    string equals no integer. *)
Theorem runs_duplicate_strings_kept :
  before_attribute_check "runs" (VList [AStr "5"; AStr "5"]) =
  Ok (VList [AInt 5; AInt 5]).
Proof. by vm_compute. Qed.

(** C7 at a value the claim fails on: normalising the strings 5 and 5
    gives the integers 5 and 5, and normalising that gives the single
    integer 5. *)
Theorem runs_normalisation_twice :
  exists once twice,
    before_attribute_check "runs" (VList [AStr "5"; AStr "5"]) = Ok once
    /\ before_attribute_check "runs" once = Ok twice
    /\ once = VList [AInt 5; AInt 5]
    /\ twice = VList [AInt 5]
    /\ once <> twice.
Proof. exists (VList [AInt 5; AInt 5]), (VList [AInt 5]). by vm_compute. Qed.

(** ** Names and files along the pipeline *)

Lemma string_length_app (s t : string) :
  String.length (s +:+ t) = String.length s + String.length t.
Proof.
  induction s as [|c s IH]; [done|]. rewrite string_app_cons. cbn.
  by rewrite IH.
Qed.

Lemma string_app_inj_r (s1 s2 t : string) : s1 +:+ t = s2 +:+ t -> s1 = s2.
Proof.
  revert s2. induction s1 as [|c s1 IH]; intros [|c' s2] H.
  - done.
  - apply (f_equal String.length) in H.
    rewrite string_app_nil_l, string_app_cons in H. cbn in H.
    rewrite string_length_app in H. lia.
  - apply (f_equal String.length) in H.
    rewrite string_app_nil_l, string_app_cons in H. cbn in H.
    rewrite string_length_app in H. lia.
  - rewrite !string_app_cons in H. injection H as -> H. f_equal.
    by apply IH.
Qed.

Lemma cmsdriver_arguments_fileout (r : Request) (sequence_json : dict) (i : Z)
    (overwrite_input : pyval) :
  dict_get (cmsdriver_arguments r sequence_json i overwrite_input) "fileout" =
  Some (VStr (dquote +:+ "file:" +:+ get_sequence_name r i +:+ ".root"
              +:+ dquote)).
Proof.
  unfold cmsdriver_arguments. rewrite !dict_get_set_ne by done.
  by rewrite dict_get_set_eq.
Qed.

Lemma sequence_name_index (r : Request) (i j : Z) :
  get_sequence_name r i = get_sequence_name r j -> i = j.
Proof.
  unfold get_sequence_name.
  destruct (Z.eqb_spec i (Z.of_nat (length (sequences r)) - 1)) as [->|Hi],
    (Z.eqb_spec j (Z.of_nat (length (sequences r)) - 1)) as [->|Hj];
    cbn [negb]; intros Heq; [done| | |].
  - rewrite <- (string_app_nil_r (py_str (get_prepid r))) in Heq at 1.
    by apply (inj (String.append _)) in Heq.
  - rewrite <- (string_app_nil_r (py_str (get_prepid r))) in Heq at 2.
    by apply (inj (String.append _)) in Heq.
  - apply (inj (String.append _)) in Heq.
    apply (inj (String.append "_")) in Heq.
    by apply (inj pretty) in Heq.
Qed.

(** X1: the name of a sequence tells its index: two indices of one
    request get the same name only when they are the same index, and
    the name is the bare prepid only at the index of the last sequence;
    so no two indices write the same file. *)
Theorem get_sequence_name_injective (r : Request) (i j : Z) :
  (get_sequence_name r i = get_sequence_name r j <-> i = j)
  /\ (get_sequence_name r i = py_str (get_prepid r) <->
      i = (Z.of_nat (length (sequences r)) - 1)%Z)
  /\ (forall s1 s2 o1 o2,
        dict_get (cmsdriver_arguments r s1 i o1) "fileout" =
        dict_get (cmsdriver_arguments r s2 j o2) "fileout" -> i = j).
Proof.
  split_and!.
  - split; [apply sequence_name_index|by intros ->].
  - unfold get_sequence_name.
    destruct (Z.eqb_spec i (Z.of_nat (length (sequences r)) - 1)) as [Hi|Hi];
      cbn [negb]; [done|].
    split; [|done]. intros Heq.
    rewrite <- (string_app_nil_r (py_str (get_prepid r))) in Heq at 2.
    by apply (inj (String.append _)) in Heq.
  - intros s1 s2 o1 o2. rewrite !cmsdriver_arguments_fileout.
    intros [= Heq]. rewrite !string_app_nil_l in Heq.
    by apply string_app_inj_r, sequence_name_index in Heq.
Qed.

(** X2: with no overwrite input, what the sequence at [i + 1] reads is
    what the sequence at [i] writes, for every [i] but [-1]: the two
    mappings hold the same value, one under [filein] and one under
    [fileout], and the commands show the same token for it; the file
    written does not depend on the overwrite input. *)
Theorem cmsdriver_arguments_chain (r : Request) (producer consumer : dict)
    (i : Z) (overwrite_input : pyval) :
  (i + 1 <> 0)%Z ->
  dict_get (cmsdriver_arguments r consumer (i + 1) VNone) "filein" =
  dict_get (cmsdriver_arguments r producer i overwrite_input) "fileout"
  /\ forall t,
       ("filein", t) ∈ emitted (cmsdriver_arguments r consumer (i + 1) VNone)
       <-> ("fileout", t)
             ∈ emitted (cmsdriver_arguments r producer i overwrite_input).
Proof.
  intros Hi.
  assert (H : dict_get (cmsdriver_arguments r consumer (i + 1) VNone) "filein" =
              dict_get (cmsdriver_arguments r producer i overwrite_input)
                "fileout").
  { unfold cmsdriver_arguments. cbn [truthy].
    rewrite !dict_get_set_ne by done.
    apply Z.eqb_neq in Hi as ->.
    rewrite !dict_get_set_eq. replace (i + 1 - 1)%Z with i by lia.
    by rewrite !string_app_assoc. }
  split; [done|]. intros t. by rewrite !emitted_elem, H.
Qed.

Lemma cmsdriver_arguments_chain_witness :
  dict_get (cmsdriver_arguments (sample_request [reco_sequence; dqm_sequence])
              dqm_sequence (0 + 1) VNone) "filein" =
  dict_get (cmsdriver_arguments (sample_request [reco_sequence; dqm_sequence])
              reco_sequence 0 VNone) "fileout".
Proof.
  apply (cmsdriver_arguments_chain
           (sample_request [reco_sequence; dqm_sequence])
           reco_sequence dqm_sequence 0 VNone).
  lia.
Defined.

(** X3: for an index at which the request has a sequence, the index
    below zero that Python reads as the same place selects the same
    sequence but names its files after the negative number, so that the
    two compilations write different files. *)
Theorem negative_index_alias (r : Request) (i : Z) :
  (0 <= i < Z.of_nat (length (sequences r)))%Z ->
  let j := (i - Z.of_nat (length (sequences r)))%Z in
  py_index (sequences r) j = py_index (sequences r) i
  /\ get_sequence_name r j = py_str (get_prepid r) +:+ "_" +:+ pretty j
  /\ forall sequence_json overwrite_input,
       dict_get (cmsdriver_arguments r sequence_json j overwrite_input) "fileout"
       <> dict_get (cmsdriver_arguments r sequence_json i overwrite_input)
            "fileout".
Proof.
  intros Hi j. split_and!.
  - unfold py_index.
    destruct (Z.ltb_spec j 0) as [_|Hj]; [|unfold j in Hj; lia].
    destruct (Z.ltb_spec i 0) as [|_]; [lia|].
    by replace (j + Z.of_nat (length (sequences r)))%Z with i
      by (unfold j; lia).
  - unfold get_sequence_name.
    destruct (Z.eqb_spec j (Z.of_nat (length (sequences r)) - 1)) as [Hj|_];
      [unfold j in Hj; lia|done].
  - intros sequence_json overwrite_input.
    rewrite !cmsdriver_arguments_fileout. intros [= Heq].
    rewrite !string_app_nil_l in Heq.
    apply string_app_inj_r, sequence_name_index in Heq.
    unfold j in Heq. lia.
Qed.

Lemma negative_index_alias_witness :
  py_index (sequences (sample_request [reco_sequence])) (0 - 1)
  = py_index (sequences (sample_request [reco_sequence])) 0.
Proof.
  apply (negative_index_alias (sample_request [reco_sequence]) 0).
  cbn. lia.
Defined.

(** ** The mapping of the primary command *)

Lemma dict_get_del_eq (d : dict) (k : string) :
  NoDup (dict_keys d) -> dict_get (dict_del d k) k = None.
Proof.
  unfold dict_keys. induction d as [|[k0 v0] d IH]; cbn; [done|].
  intros [Hk0 Hnd]%NoDup_cons.
  destruct (String.eqb_spec k k0) as [->|Hne]; cbn.
  - by apply dict_get_None.
  - apply String.eqb_neq in Hne as ->. by apply IH.
Qed.

Lemma dict_strip (d : dict) (k : string) :
  NoDup (dict_keys d) ->
  dict_get (if dict_in k d then dict_del d k else d) k = None.
Proof.
  intros Hnd. unfold dict_in.
  destruct (dict_get d k) eqn:Hk; [by apply dict_get_del_eq|done].
Qed.

(** X4: the two keys that describe stored configurations are no
    arguments: for a sequence with distinct keys, the primary mapping
    binds neither [config_id] nor [harvesting_config_id], whatever the
    sequence holds there, and the command shows neither; every key of
    the sequence that [get_cmsdriver] does not set itself keeps the
    value the sequence gives it. *)
Theorem cmsdriver_arguments_metadata (r : Request) (sequence_json : dict)
    (i : Z) (overwrite_input : pyval) :
  NoDup (dict_keys sequence_json) ->
  let arguments := cmsdriver_arguments r sequence_json i overwrite_input in
  (forall k, k ∈ ["config_id"; "harvesting_config_id"] ->
     dict_get arguments k = None /\ k ∉ (emitted arguments).*1)
  /\ (forall k,
        k ∉ ["config_id"; "harvesting_config_id"; "filein"; "fileout";
             "python_filename"; "data"; "no_exec"; "runUnscheduled"] ->
        dict_get arguments k = dict_get sequence_json k).
Proof.
  intros Hnd arguments. split; [|intros k; apply cmsdriver_arguments_get].
  assert (Hgone : forall k, k ∈ ["config_id"; "harvesting_config_id"] ->
                            dict_get arguments k = None).
  { intros k Hk. unfold arguments, cmsdriver_arguments.
    assert (Hdel : forall d k', k <> k' ->
      dict_get (if dict_in k' d then dict_del d k' else d) k = dict_get d k).
    { intros d k' Hkk. destruct (dict_in k' d); [|done].
      by apply dict_get_del_ne. }
    assert (Hkeep : forall d k', NoDup (dict_keys d) ->
      NoDup (dict_keys (if dict_in k' d then dict_del d k' else d))).
    { intros d k' Hd. destruct (dict_in k' d); [|done].
      by apply dict_del_NoDup. }
    apply elem_of_cons in Hk as [->|Hk];
      [|apply list_elem_of_singleton in Hk as ->];
      rewrite !dict_get_set_ne by done;
      (destruct (truthy overwrite_input); [|destruct (i =? 0)%Z]);
      rewrite dict_get_set_ne by done.
    all: try (rewrite Hdel by done; by apply dict_strip).
    all: by apply dict_strip, Hkeep. }
  intros k Hk. split; [by apply Hgone|].
  intros (v & Hv & _)%emitted_key. rewrite Hgone in Hv; done.
Qed.

Lemma cmsdriver_arguments_metadata_witness :
  dict_get dqm_sequence "config_id" = Some (VStr "abc")
  /\ dict_get (cmsdriver_arguments (sample_request [dqm_sequence])
                 dqm_sequence 0 VNone) "config_id" = None.
Proof.
  assert (Hnd : NoDup (dict_keys dqm_sequence)) by decide_by_computation.
  split; [done|].
  apply (cmsdriver_arguments_metadata (sample_request [dqm_sequence])
           dqm_sequence 0 VNone Hnd).
  apply elem_of_cons. by left.
Defined.

(** X5: the sequence cannot choose its files or unset the fixed flags:
    whatever it holds under these keys, the primary mapping binds
    [data], [no_exec] and [runUnscheduled] to [True], which the command
    shows as bare flags, and [python_filename] to the quoted prepid,
    index and [_cfg.py]; and a true overwrite input is the value of
    [filein] as it is, at any index, while one that is false (the empty
    string, an empty list, 0) changes nothing with respect to [None]. *)
Theorem cmsdriver_arguments_forced (D : list atom) (r : Request)
    (sequence_json : dict) (i : Z) (overwrite_input : pyval) :
  let arguments := cmsdriver_arguments r sequence_json i overwrite_input in
  (forall k, k ∈ ["data"; "no_exec"; "runUnscheduled"] ->
     dict_get arguments k = Some (VBool true)
     /\ (k, "") ∈ emitted arguments
     /\ command_token (k, "") = " --" +:+ k)
  /\ dict_get arguments "python_filename" =
     Some (VStr (dquote +:+ py_str (get_prepid r) +:+ "_" +:+ pretty i
                 +:+ "_cfg.py" +:+ dquote))
  /\ (truthy overwrite_input = true ->
        dict_get arguments "filein" = Some overwrite_input
        /\ ("filein", py_str (rebound overwrite_input)) ∈ emitted arguments)
  /\ (truthy overwrite_input = false ->
        arguments = cmsdriver_arguments r sequence_json i VNone
        /\ get_cmsdriver D r i overwrite_input = get_cmsdriver D r i VNone).
Proof.
  intros arguments. split_and!.
  - intros k Hk.
    assert (Hv : dict_get arguments k = Some (VBool true)).
    { unfold arguments, cmsdriver_arguments.
      repeat (apply elem_of_cons in Hk as [->|Hk]);
        [..|by apply elem_of_nil in Hk];
        rewrite ?dict_get_set_ne by done; by rewrite dict_get_set_eq. }
    split_and!; [done| |].
    + apply emitted_elem. by exists (VBool true).
    + repeat (apply elem_of_cons in Hk as [->|Hk]);
        [..|by apply elem_of_nil in Hk]; by vm_compute.
  - unfold arguments, cmsdriver_arguments.
    rewrite !dict_get_set_ne by done. by rewrite dict_get_set_eq.
  - intros Ht.
    assert (Hv : dict_get arguments "filein" = Some overwrite_input).
    { unfold arguments, cmsdriver_arguments. rewrite Ht.
      rewrite !dict_get_set_ne by done. by rewrite dict_get_set_eq. }
    split; [done|]. apply emitted_elem. by exists overwrite_input.
  - intros Ht.
    assert (Hsame : arguments = cmsdriver_arguments r sequence_json i VNone).
    { unfold arguments, cmsdriver_arguments. by rewrite Ht. }
    split; [done|]. unfold get_cmsdriver.
    destruct (py_index (sequences r) i) as [seq|]; [|done].
    cbn [mbind result_bind]. unfold cmsdriver_arguments. by rewrite Ht.
Qed.

(** ** Building a command again *)

Lemma rebound_idem (v : pyval) : rebound (rebound v) = rebound v.
Proof.
  destruct v as [[|[]|z|s]|[|a l]]; unfold rebound; cbn; try done.
  - destruct (negb (z =? 0)%Z) eqn:Hz; cbn; by rewrite Hz.
  - destruct (negb (String.eqb s "")) eqn:Hs; cbn; by rewrite Hs.
  - by destruct (negb _).
Qed.

Lemma rebound_truthy (v : pyval) : truthy (rebound v) = true -> truthy v = true.
Proof.
  unfold rebound. destruct (truthy v) eqn:Ht; [done|]. by rewrite Ht.
Qed.

(** A mapping with distinct keys is its keys, in their order, and the
    values found under them. *)
Lemma dict_ext (d1 d2 : dict) :
  NoDup (dict_keys d1) -> dict_keys d1 = dict_keys d2 ->
  (forall k, dict_get d1 k = dict_get d2 k) -> d1 = d2.
Proof.
  unfold dict_keys. revert d2.
  induction d1 as [|[k v] d1 IH]; intros [|[k' v'] d2] Hnd Hk Hg;
    try done.
  cbn in Hk. injection Hk as <- Hk.
  apply NoDup_cons in Hnd as [Hk1 Hnd].
  pose proof (Hg k) as Hv. cbn in Hv. rewrite String.eqb_refl in Hv.
  injection Hv as <-. f_equal. apply IH; [done..|].
  intros key. specialize (Hg key). cbn in Hg.
  destruct (String.eqb_spec key k) as [Heq|_]; [|done].
  rewrite Heq.
  assert (Hnone : dict_get d1 k = None) by by apply dict_get_None.
  rewrite Hnone. symmetry. apply dict_get_None. unfold dict_keys.
  by rewrite <- Hk.
Qed.

(** X6: building a command a second time from the mapping a first call
    left (with distinct keys) changes the mapping no more, but the text
    is not the same: a key that was bound to [True] is shown by the first
    call and not by the second, which finds the empty string there; what
    the second call shows, the first showed with the same text. *)
Theorem build_cmsdriver_again (kind kind' : string) (arguments : dict) :
  NoDup (dict_keys arguments) ->
  let after := (build_cmsdriver kind arguments).2 in
  (build_cmsdriver kind' after).2 = after
  /\ (build_cmsdriver kind' after).1 =
     comment_block kind' (emitted after) +:+ nl
     +:+ command_block kind' (emitted after)
  /\ (forall k t, (k, t) ∈ emitted after <->
        (k, t) ∈ emitted arguments
        /\ exists v, dict_get arguments k = Some v
                     /\ truthy (rebound v) = true)
  /\ (forall k, dict_get arguments k = Some (VBool true) ->
        k ∈ (emitted arguments).*1 /\ k ∉ (emitted after).*1).
Proof.
  intros Hnd after.
  destruct (build_cmsdriver_spec kind arguments Hnd) as (_ & Hkeys & Hget).
  fold after in Hkeys, Hget.
  assert (Hnd' : NoDup (dict_keys after)) by by rewrite Hkeys.
  destruct (build_cmsdriver_spec kind' after Hnd') as (Htext & Hkeys' & Hget').
  assert (Hshown : forall k t, (k, t) ∈ emitted after <->
    (k, t) ∈ emitted arguments
    /\ exists v, dict_get arguments k = Some v /\ truthy (rebound v) = true).
  { intros k t. rewrite !emitted_elem. split.
    - intros (v' & Hv' & Ht & ->). rewrite Hget in Hv'.
      destruct (dict_get arguments k) as [v|] eqn:Hv; [|done].
      injection Hv' as <-. split; [|by eauto].
      exists v. split_and!; [done|by apply rebound_truthy|].
      by rewrite rebound_idem.
    - intros [(v & Hv & Ht & ->) (v' & Hv' & Ht')].
      assert (v' = v) as -> by congruence.
      exists (rebound v). rewrite Hget, Hv. split_and!; [done..|].
      by rewrite rebound_idem. }
  split_and!; [|done|done|].
  - apply dict_ext; [by rewrite Hkeys'|done|].
    intros k. rewrite Hget', Hget.
    destruct (dict_get arguments k); [|done]. cbn. by rewrite rebound_idem.
  - intros k Hk. split.
    + apply emitted_key. by exists (VBool true).
    + intros ([k' t] & -> & (_ & v & Hv & Ht)%Hshown)%list_elem_of_fmap.
      cbn in Hk. by assert (v = VBool true) as -> by congruence.
Qed.

Lemma build_cmsdriver_again_witness :
  (build_cmsdriver "RECO" (build_cmsdriver "RECO" sample_arguments).2).2 =
  (build_cmsdriver "RECO" sample_arguments).2
  /\ "data" ∈ (emitted sample_arguments).*1
  /\ "data" ∉ (emitted (build_cmsdriver "RECO" sample_arguments).2).*1.
Proof.
  assert (Hnd : NoDup (dict_keys sample_arguments)) by decide_by_computation.
  destruct (build_cmsdriver_again "RECO" "RECO" sample_arguments Hnd)
    as (H1 & _ & _ & H2).
  split; [exact H1|]. exact (H2 "data" eq_refl).
Defined.

(** X7: a mapping with distinct keys and no true value (an empty
    mapping among them) gives a command of the two heading lines and the
    name of the tool alone, and is left as it was. *)
Theorem build_cmsdriver_nothing_shown (kind : string) (arguments : dict) :
  NoDup (dict_keys arguments) ->
  (forall k v, dict_get arguments k = Some v -> truthy v = false) ->
  build_cmsdriver kind arguments =
  ("# Arguments for " +:+ kind +:+ ":" +:+ nl +:+ nl
   +:+ "# Command for " +:+ kind +:+ ":" +:+ nl +:+ "cmsDriver.py " +:+ kind,
   arguments).
Proof.
  intros Hnd Hfalse.
  destruct (build_cmsdriver_spec kind arguments Hnd) as (Htext & Hkeys & Hget).
  assert (Hnone : emitted arguments = []).
  { destruct (emitted arguments) as [|[k t] l] eqn:He; [done|].
    assert (Hin : (k, t) ∈ emitted arguments)
      by (rewrite He; apply elem_of_cons; by left).
    apply emitted_elem in Hin as (v & Hv & Ht & _).
    rewrite (Hfalse k v Hv) in Ht. done. }
  destruct (build_cmsdriver kind arguments) as [text after].
  cbn [fst snd] in *. f_equal.
  - rewrite Htext, Hnone. unfold comment_block, command_block. cbn.
    by rewrite !string_app_assoc, ?string_app_nil_r.
  - apply dict_ext; [by rewrite Hkeys|done|].
    intros k. rewrite Hget. destruct (dict_get arguments k) as [v|] eqn:Hv;
      [|done].
    cbn. unfold rebound. by rewrite (Hfalse k v Hv).
Qed.

Lemma build_cmsdriver_nothing_shown_witness :
  build_cmsdriver "RECO" [("customise", VStr ""); ("nStreams", VInt 0)] =
  ("# Arguments for RECO:" +:+ nl +:+ nl
   +:+ "# Command for RECO:" +:+ nl +:+ "cmsDriver.py RECO",
   [("customise", VStr ""); ("nStreams", VInt 0)]).
Proof.
  apply (build_cmsdriver_nothing_shown "RECO"
           [("customise", VStr ""); ("nStreams", VInt 0)]).
  - decide_by_computation.
  - intros k v Hv. cbn in Hv.
    destruct (String.eqb k "customise"); [by injection Hv as <-|].
    destruct (String.eqb k "nStreams"); [by injection Hv as <-|done].
Defined.

(** ** More on the normalisation of [runs] *)

Lemma atom_eqb_int (a : atom) (z : Z) :
  atom_eqb a (AInt z) = true -> py_int a = Ok z.
Proof.
  unfold atom_eqb. destruct a as [|b|x|s]; cbn; try done.
  - by intros ->%Z.eqb_eq.
  - by intros ->%Z.eqb_eq.
Qed.

Lemma py_in_int (a : atom) (seen : list Z) :
  py_in a (AInt <$> seen) = true -> exists z, z ∈ seen /\ py_int a = Ok z.
Proof.
  unfold py_in. induction seen as [|x seen IH]; cbn; [done|].
  intros [Hx|Hs]%orb_true_iff.
  - exists x. split; [apply elem_of_cons; by left|by apply atom_eqb_int].
  - destruct (IH Hs) as (z & Hz & Hi). exists z.
    split; [apply elem_of_cons; by right|done].
Qed.

(** A run of the loop that ends well: what it adds are integer values of
    elements it visited, and every element visited has its integer value
    in the result. *)
Lemma normalise_runs_ok (l : list atom) (seen : list Z) (out : list atom) :
  normalise_runs (AInt <$> seen) l = Ok out ->
  exists added,
    out = AInt <$> (seen ++ added)
    /\ length added <= length l
    /\ (forall z, z ∈ added -> exists a, a ∈ l /\ py_int a = Ok z)
    /\ (forall a, a ∈ l -> exists z, z ∈ seen ++ added /\ py_int a = Ok z).
Proof.
  revert seen. induction l as [|run rest IH]; intros seen; cbn [normalise_runs].
  - intros [= <-]. exists []. rewrite app_nil_r. split_and!; [done..| |].
    + by intros z ?%elem_of_nil.
    + by intros a ?%elem_of_nil.
  - destruct (py_in run (AInt <$> seen)) eqn:Hin; cbn [negb].
    + intros (added & -> & Hlen & Hfrom & Hall)%IH.
      exists added. split_and!; [done|cbn; lia| |].
      * intros z (a & Ha & Hz)%Hfrom. exists a.
        split; [apply elem_of_cons; by right|done].
      * intros a [->|Ha]%elem_of_cons; [|by apply Hall].
        destruct (py_in_int _ _ Hin) as (z & Hz & Hi). exists z.
        split; [apply elem_of_app; by left|done].
    + destruct (py_int run) as [z|e] eqn:Hrun; cbn [mbind result_bind];
        [|done].
      replace ((AInt <$> seen) ++ [AInt z]) with (AInt <$> (seen ++ [z]))
        by by rewrite fmap_app.
      intros (added & -> & Hlen & Hfrom & Hall)%IH.
      exists (z :: added). split_and!.
      * by rewrite <- app_assoc.
      * cbn. lia.
      * intros z' [->|(a & Ha & Hz)%Hfrom]%elem_of_cons.
        -- exists run. split; [apply elem_of_cons; by left|done].
        -- exists a. split; [apply elem_of_cons; by right|done].
      * intros a [->|Ha]%elem_of_cons.
        -- exists z. split; [|done]. apply elem_of_app. right.
           apply elem_of_cons. by left.
        -- destruct (Hall a Ha) as (z' & Hz' & Hi). exists z'.
           split; [|done]. by rewrite <- app_assoc in Hz'.
Qed.

(** A run of the loop that raises: some element has no integer value. *)
Lemma normalise_runs_error (l : list atom) (seen : list Z) (e : exn) :
  normalise_runs (AInt <$> seen) l = Err e ->
  exists a, a ∈ l /\ py_int a = Err e.
Proof.
  revert seen. induction l as [|run rest IH]; intros seen; cbn [normalise_runs];
    [done|].
  destruct (py_in run (AInt <$> seen)); cbn [negb].
  - intros (a & Ha & He)%IH. exists a.
    split; [apply elem_of_cons; by right|done].
  - destruct (py_int run) as [z|e'] eqn:Hrun; cbn [mbind result_bind].
    + replace ((AInt <$> seen) ++ [AInt z]) with (AInt <$> (seen ++ [z]))
        by by rewrite fmap_app.
      intros (a & Ha & He)%IH. exists a.
      split; [apply elem_of_cons; by right|done].
    + intros [= ->]. exists run. split; [apply elem_of_cons; by left|done].
Qed.

(** X8: for a value of [runs] that can be iterated (a list, or a string,
    whose characters are then the elements): the normalisation succeeds
    exactly when [int] accepts every element; what it then returns is a
    list of integers, no longer than the input, and its integers are
    exactly the integer values of the elements. *)
Theorem runs_normalised_to_integers (v : pyval) (values : list atom) :
  py_iter v = Ok values ->
  ((exists w, before_attribute_check "runs" v = Ok w) <->
   forall a, a ∈ values -> exists z, py_int a = Ok z)
  /\ forall w, before_attribute_check "runs" v = Ok w ->
       exists runs : list Z,
         w = VList (AInt <$> runs)
         /\ length runs <= length values
         /\ forall z, z ∈ runs <-> exists a, a ∈ values /\ py_int a = Ok z.
Proof.
  intros Hiter. unfold before_attribute_check. cbn [String.eqb Ascii.eqb].
  replace (String.eqb "runs" "runs") with true by done.
  rewrite Hiter. cbn [mbind result_bind].
  change (@nil atom) with (AInt <$> @nil Z).
  destruct (normalise_runs (AInt <$> []) values) as [out|e] eqn:Hrun;
    cbn [mbind result_bind].
  - destruct (normalise_runs_ok _ _ _ Hrun) as (runs & -> & Hlen & Hfrom & Hall).
    cbn [app] in *. split.
    + split; [|by eauto]. intros _ a Ha.
      destruct (Hall a Ha) as (z & _ & Hz). eauto.
    + intros w [= <-]. exists runs. split_and!; [done..|].
      intros z. split; [apply Hfrom|].
      intros (a & Ha & Hz). destruct (Hall a Ha) as (z' & Hz' & Hi).
      by assert (z' = z) as <- by congruence.
  - split; [|done]. split; [by intros [w ?]|].
    intros Hconv. destruct (normalise_runs_error _ _ _ Hrun) as (a & Ha & He).
    destruct (Hconv a Ha) as [z Hz]. congruence.
Qed.

Lemma runs_normalised_to_integers_witness :
  (exists w,
     before_attribute_check "runs" (VList [AStr "5"; AInt 3; AStr " 5 "])
     = Ok w) <->
  (forall a, a ∈ [AStr "5"; AInt 3; AStr " 5 "] -> exists z, py_int a = Ok z).
Proof.
  exact (proj1 (runs_normalised_to_integers
                  (VList [AStr "5"; AInt 3; AStr " 5 "])
                  [AStr "5"; AInt 3; AStr " 5 "] eq_refl)).
Defined.

Lemma first_occurrences_all (seen l : list Z) (z : Z) :
  z ∈ l -> z ∈ seen \/ z ∈ first_occurrences seen l.
Proof.
  revert seen. induction l as [|x l IH]; intros seen; cbn.
  - by intros ?%elem_of_nil.
  - intros [->|Hz]%elem_of_cons.
    + case_bool_decide; [by left|right; apply elem_of_cons; by left].
    + case_bool_decide.
      * by apply IH.
      * destruct (IH (seen ++ [x]) Hz) as [Hs|?].
        -- apply elem_of_app in Hs as [?|Hx]; [by left|].
           apply list_elem_of_singleton in Hx as ->.
           right. apply elem_of_cons. by left.
        -- right. apply elem_of_cons. by right.
Qed.

Lemma first_occurrences_sublist (seen l : list Z) :
  first_occurrences seen l `sublist_of` l.
Proof.
  revert seen. induction l as [|x l IH]; intros seen; cbn; [done|].
  case_bool_decide; [by apply sublist_cons|by apply sublist_skip].
Qed.

(** X9: on a list of integers the normalisation of [runs] does what its
    name says: it returns the list of first occurrences, which has no
    integer twice, holds every integer of the input, keeps the order of
    the input, and is returned as it is when normalised again. *)
Theorem runs_of_integers (l : list Z) :
  let runs := first_occurrences [] l in
  before_attribute_check "runs" (VList (AInt <$> l)) = Ok (VList (AInt <$> runs))
  /\ NoDup runs
  /\ (forall z, z ∈ runs <-> z ∈ l)
  /\ runs `sublist_of` l
  /\ (NoDup l -> runs = l)
  /\ before_attribute_check "runs" (VList (AInt <$> runs)) =
     Ok (VList (AInt <$> runs)).
Proof.
  intros runs. destruct (runs_of_ints l) as [Hfirst Hagain].
  split_and!; [done|apply first_occurrences_NoDup| |
               apply first_occurrences_sublist| |done].
  - intros z. split.
    + by intros [_ ?]%first_occurrences_elem.
    + intros Hz. destruct (first_occurrences_all [] l z Hz) as [Hn|?];
        [by apply elem_of_nil in Hn|done].
  - intros Hnd. apply first_occurrences_distinct; [done|].
    intros x _. apply not_elem_of_nil.
Qed.

(** ** More on harvesting *)

(** X10: the harvesting command reads its values in the mapping as the
    primary command left it.  For a sequence at the index, with distinct
    keys, a list of step names of which one asks for harvesting, and
    values under [conditions], [era] and [scenario]: when the era is by
    then a string (it was a string, a list that is not empty, or
    [True]), the text returned has the harvesting command with the
    conditions and the scenario as rebound and the era up to its first
    comma; when it is not (a number, [None], [False], an empty list),
    the call raises [AttributeError]. *)
Theorem get_cmsdriver_harvesting_values (D : list atom) (r : Request) (i : Z)
    (overwrite_input : pyval) (sequence_json : dict) (names : list string)
    (c ev sc : pyval) :
  py_index (sequences r) i = Ok sequence_json ->
  NoDup (dict_keys sequence_json) ->
  dict_get sequence_json "step" = Some (VList (AStr <$> names)) ->
  Exists dqm_name names ->
  dict_get sequence_json "conditions" = Some c ->
  dict_get sequence_json "era" = Some ev ->
  dict_get sequence_json "scenario" = Some sc ->
  let primary :=
    (build_cmsdriver "RECO"
       (cmsdriver_arguments r sequence_json i overwrite_input)).1 in
  exists label,
    harvesting_step (AStr <$> names) = Ok (Some label)
    /\ (forall e, rebound ev = VStr e ->
          get_cmsdriver D r i overwrite_input =
          Ok (primary +:+ nl +:+ nl
              +:+ (build_cmsdriver "HARVESTING"
                     (harvesting_dict (rebound c) (rebound sc) label
                        (split_first "," e) (get_sequence_name r i))).1))
    /\ ((forall e, rebound ev <> VStr e) ->
          get_cmsdriver D r i overwrite_input = Err AttributeError)
    /\ (forall a l, rebound (VList (a :: l)) = VStr (join "," (str_atom <$> a :: l)))
    /\ rebound (VBool true) = VStr ""
    /\ (forall v, v ∈ [VNone; VBool false; VList []] \/ (exists z, v = VInt z) ->
          forall e, rebound v <> VStr e).
Proof.
  intros Hseq Hnd Hstep Hex Hc He Hsc primary.
  destruct (harvesting_step_found names Hex) as [label Hlabel].
  exists label. split; [done|].
  pose proof (get_cmsdriver_unfold D r i overwrite_input _ _ Hseq Hstep)
    as Hrun.
  cbn zeta in Hrun. fold primary in Hrun.
  rewrite (proj2 (needs_harvesting_names _) Hex), Hlabel in Hrun.
  cbn [mbind result_bind] in Hrun.
  unfold harvesting_arguments, dict_item in Hrun.
  rewrite !primary_mapping_get in Hrun by (done || decide_by_computation).
  rewrite Hc, He, Hsc in Hrun. cbn [fmap option_fmap option_map] in Hrun.
  cbn [mbind result_bind from_option] in Hrun.
  split_and!.
  - intros e Hev. rewrite Hrun, Hev. done.
  - intros Hev. rewrite Hrun.
    destruct (rebound ev) as [[| | |e]|l]; try done. by destruct (Hev e).
  - done.
  - done.
  - intros v [Hv|[z ->]] e.
    + repeat (apply elem_of_cons in Hv as [->|Hv]; [done|]).
      by apply elem_of_nil in Hv.
    + unfold rebound. by destruct (truthy _).
Qed.

Lemma get_cmsdriver_harvesting_values_witness :
  exists label,
    harvesting_step (AStr <$> ["DQM"]) = Ok (Some label)
    /\ get_cmsdriver []
         (sample_request [dqm_sequence_with_era_list]) 0 VNone =
       Ok ((build_cmsdriver "RECO"
              (cmsdriver_arguments (sample_request [dqm_sequence_with_era_list])
                 dqm_sequence_with_era_list 0 VNone)).1
           +:+ nl +:+ nl
           +:+ (build_cmsdriver "HARVESTING"
                  (harvesting_dict (VStr "auto:run3") (VStr "pp") label
                     "Run3" "ABC-123")).1).
Proof.
  assert (Hnd : NoDup (dict_keys dqm_sequence_with_era_list))
    by decide_by_computation.
  assert (Hex : Exists dqm_name ["DQM"]) by (apply Exists_cons_hd; by left).
  destruct (get_cmsdriver_harvesting_values []
              (sample_request [dqm_sequence_with_era_list]) 0 VNone
              dqm_sequence_with_era_list ["DQM"]
              (VStr "auto:run3") (VList [AStr "Run3"; AStr "extra"]) (VStr "pp")
              eq_refl Hnd eq_refl Hex eq_refl eq_refl eq_refl)
    as (label & Hl & H & _).
  exists label. split; [exact Hl|]. exact (H "Run3,extra" eq_refl).
Defined.

Lemma harvesting_step_not_string (pre : list string) (a : atom)
    (post : list atom) :
  Forall (fun s => ~ dqm_name s) pre -> (forall s, a <> AStr s) ->
  harvesting_step ((AStr <$> pre) ++ a :: post) = Err AttributeError.
Proof.
  intros Hpre Ha. induction Hpre as [|s pre Hs _ IH]; cbn [app fmap list_fmap].
  - cbn [harvesting_step]. destruct a as [|b|z|s]; try done. by destruct (Ha s).
  - by rewrite harvesting_step_skip.
Qed.

(** X11: when harvesting is asked for and the step list holds, before
    any name that asks for it, an entry that is no string (a number,
    [None], a boolean), the call raises [AttributeError] and returns no
    text: the loop calls [startswith] on the entry. *)
Theorem get_cmsdriver_step_not_string (D : list atom) (r : Request) (i : Z)
    (overwrite_input : pyval) (sequence_json : dict) (pre : list string)
    (a : atom) (post : list atom) :
  py_index (sequences r) i = Ok sequence_json ->
  needs_harvesting D sequence_json = true ->
  Sequence_get_step D sequence_json = (AStr <$> pre) ++ a :: post ->
  Forall (fun s => ~ dqm_name s) pre ->
  (forall s, a <> AStr s) ->
  get_cmsdriver D r i overwrite_input = Err AttributeError.
Proof.
  intros Hseq Hneeds Hsteps Hpre Ha. unfold get_cmsdriver.
  rewrite Hseq. cbn [mbind result_bind]. rewrite Hneeds, Hsteps.
  destruct (build_cmsdriver "RECO" _) as [text after].
  by rewrite harvesting_step_not_string.
Qed.

Lemma get_cmsdriver_step_not_string_witness :
  get_cmsdriver []
    (sample_request [[("step", VList [AStr "RECO"; AInt 5; AStr "DQM"])]])
    0 VNone
  = Err AttributeError.
Proof.
  apply (get_cmsdriver_step_not_string []
           (sample_request [[("step", VList [AStr "RECO"; AInt 5; AStr "DQM"])]])
           0 VNone [("step", VList [AStr "RECO"; AInt 5; AStr "DQM"])]
           ["RECO"] (AInt 5) [AStr "DQM"]); try reflexivity.
  - constructor; [|constructor].
    intros H%is_dqm_step_name. vm_compute in H. discriminate H.
  - intros s H. discriminate H.
Defined.

(** ** The set-up script *)

Lemma string_count_app (c : ascii) (s t : string) :
  string_count c (s +:+ t) = string_count c s + string_count c t.
Proof.
  induction s as [|c' s IH]; [done|]. rewrite string_app_cons. cbn.
  rewrite IH. lia.
Qed.

(** X12: the set-up script is nine lines when the text of the release
    has no line break in it, and the release is put in as it is, four
    times: the script has eight line breaks and four times those of the
    release. *)
Theorem get_cmssw_setup_lines (r : Request) :
  string_count "010" (get_cmssw_setup r) =
  8 + 4 * string_count "010" (py_str (get_cmssw_release r)).
Proof.
  unfold get_cmssw_setup. cbn [join].
  rewrite !string_count_app.
  generalize (string_count "010" (py_str (get_cmssw_release r))).
  intros n. cbn. lia.
Qed.
